(** * ChatWithMe: the client session core of [app.js]

    A shallow embedding of the [ChatWithMeApp] class: the fields of the
    object, the part of the document it touches, the effects it has on the
    browser (requests, alerts, console, timers, sockets, local storage), and
    every method of the class as a computation over that world.  An [async]
    method is split at each [await]: the part that runs up to the request,
    and the continuation that runs when the request settles; whatever other
    handler runs in between sees, and may change, the same world. *)

From stdpp Require Import base strings list gmap.
From Stdlib Require Import ZArith.

Local Open Scope Z_scope.

(** ** Strings of the host language

    A string is the sequence of its UTF-8 bytes. *)

Module Js.

Abbreviation ascii := Stdlib.Strings.Ascii.ascii.
Abbreviation code := Stdlib.Strings.Ascii.N_of_ascii.
Abbreviation of_code := Stdlib.Strings.Ascii.ascii_of_N.

Definition byte_in (lo hi : N) (c : ascii) : bool :=
  let n := code c in ((lo <=? n) && (n <=? hi))%N.

Definition byte_is (k : N) (c : ascii) : bool := (code c =? k)%N.

(** White space and line terminators of one byte: TAB, LF, VT, FF, CR, SP. *)
Definition space1 (a : ascii) : bool := byte_in 9 13 a || byte_is 32 a.

(** U+00A0. *)
Definition space2 (a b : ascii) : bool := byte_is 194 a && byte_is 160 b.

(** U+1680, U+2000..U+200A, U+2028, U+2029, U+202F, U+205F, U+3000, U+FEFF. *)
Definition space3 (a b c : ascii) : bool :=
  (byte_is 225 a && byte_is 154 b && byte_is 128 c)
  || (byte_is 226 a && byte_is 128 b
      && (byte_in 128 138 c || byte_in 168 169 c || byte_is 175 c))
  || (byte_is 226 a && byte_is 129 b && byte_is 159 c)
  || (byte_is 227 a && byte_is 128 b && byte_is 128 c)
  || (byte_is 239 a && byte_is 187 b && byte_is 191 c).

(** [strip false] removes the white space a string starts with; [strip true]
    does so on a reversed string, where the bytes of a character come last
    byte first. *)
Fixpoint strip (backwards : bool) (s : string) : string :=
  match s with
  | EmptyString => EmptyString
  | String a r1 =>
      if space1 a then strip backwards r1
      else
        match r1 with
        | EmptyString => s
        | String b r2 =>
            if (if backwards then space2 b a else space2 a b)
            then strip backwards r2
            else
              match r2 with
              | EmptyString => s
              | String c r3 =>
                  if (if backwards then space3 c b a else space3 a b c)
                  then strip backwards r3
                  else s
              end
        end
  end.

(** [String.prototype.trim]. *)
Definition trim (s : string) : string :=
  String.rev (strip true (String.rev (strip false s))).

(** A string is truthy unless it is empty. *)
Definition truthy (s : string) : bool :=
  match s with EmptyString => false | String _ _ => true end.

Definition hex_digit (n : N) : ascii :=
  of_code (if (n <? 10)%N then 48 + n else 55 + n)%N.

(** The characters [encodeURIComponent] leaves alone:
    letters, digits and [- _ . ! ~ * ' ( )]. *)
Definition unreserved (c : ascii) : bool :=
  byte_in 65 90 c || byte_in 97 122 c || byte_in 48 57 c
  || byte_is 45 c || byte_is 95 c || byte_is 46 c || byte_is 33 c
  || byte_is 126 c || byte_is 42 c || byte_is 39 c || byte_is 40 c
  || byte_is 41 c.

Fixpoint encodeURIComponent (s : string) : string :=
  match s with
  | EmptyString => EmptyString
  | String c r =>
      if unreserved c then String c (encodeURIComponent r)
      else
        let n := code c in
        String (of_code 37)
          (String (hex_digit (n / 16)%N)
             (String (hex_digit (n mod 16)%N) (encodeURIComponent r)))
  end.

(** A boolean inside a template literal. *)
Definition of_bool (b : bool) : string := if b then "true" else "false".

End Js.

(** ** Data the server sends

    The payloads are taken to have the shape the client reads them with:
    [message.sender.id], [invitation.from_user.username], and so on. *)

Record User := {
  user_id : string;
  username : string;
  avatar_url : string;
  chat_side : string
}.

Record Contact := {
  contact_user : User;
  summary : string
}.

(** [recipient] is part of the payload; no method of the class reads it. *)
Record Message := {
  sender : User;
  recipient : option User;
  content : string;
  timestamp : string;
  is_public : bool
}.

Record Invitation := {
  inv_id : string;
  from_user : User;
  to_user : User;
  activity : string;
  inv_message : option string
}.

Record InvitationResponse := {
  accepted : bool;
  responder : User;
  resp_activity : string
}.

(** The envelope of the push channel, by its [type] field. *)
Inductive Envelope :=
  | NewMessage (message : Message)
  | ActivityInvitation (invitation : Invitation)
  | InvitationResponded (response : InvitationResponse)
  | OtherType (type : string)
  | JsonNull.                 (* the frame is the text [null] *)

#[global] Instance User_eq_dec : EqDecision User.
Proof. solve_decision. Defined.
#[global] Instance Message_eq_dec : EqDecision Message.
Proof. solve_decision. Defined.
#[global] Instance Invitation_eq_dec : EqDecision Invitation.
Proof. solve_decision. Defined.

(** ** The document

    Elements are named by their [id].  [index.html] is not part of the
    sources; every element the class looks up by id is taken to exist. *)

Record MessageElement := {
  el_sent : bool;             (* class [message sent], else [message received] *)
  el_avatar_src : string;
  el_avatar_alt : string;
  el_sender : string;
  el_time : string;
  el_text : string
}.

Record ContactBubble := {
  bubble_user_id : string;
  bubble_avatar_src : string;
  bubble_name : string;
  bubble_summary : string;
  bubble_side : string
}.

Inductive Node :=
  | MessageNode (e : MessageElement)
  | ContactNode (b : ContactBubble)
  | HistoryPlaceholder
  | InvitationDetails (avatar name act : string) (quoted : option string)
  | NotificationNode (serial : nat) (text : string).

#[global] Instance MessageElement_eq_dec : EqDecision MessageElement.
Proof. solve_decision. Defined.
#[global] Instance ContactBubble_eq_dec : EqDecision ContactBubble.
Proof. solve_decision. Defined.
#[global] Instance Node_eq_dec : EqDecision Node.
Proof. solve_decision. Defined.

Record Dom := {
  classes : gmap string (gset string);      (* classList, by id *)
  text : gmap string string;                (* textContent, by id *)
  src : gmap string string;                 (* src of an image, by id *)
  value : gmap string string;               (* value of an input, by id *)
  children : gmap string (list Node);       (* child nodes, by id *)
  invite_btn_selected : gset string;        (* .activity-invite-btn.selected *)
  activity_item_selected : gset string      (* .activity-item.selected *)
}.

(** ** The object and the browser around it *)

Record WebSocket := {
  ws_serial : nat;
  ws_url : string
}.

(** The value of [this.contacts]: the array of contacts, or the body of the
    contacts response when that body was some other JSON value. *)
Inductive ContactsValue :=
  | ContactList (l : list Contact)
  | NotAnArray.

Record App := {
  currentUser : option User;
  websocket : option WebSocket;
  contacts : ContactsValue;
  currentPrivateChatUser : option User;
  selectedActivity : option string;
  invitationTargetUser : option User;
  currentInvitation : option Invitation
}.

Inductive Body :=
  | NoBody
  | FormData (fields : list (string * string))
  | UrlEncoded (s : string).   (* Content-Type: application/x-www-form-urlencoded *)

Record Request := {
  req_method : string;
  req_url : string;
  req_body : Body
}.

(** What is waiting for a request to settle. *)
Inductive Continuation :=
  | K_handleLogin
  | K_loadContacts
  | K_loadPublicMessages
  | K_sendPublicMessage (chatSide : string)
  | K_sendPrivateMessage
  | K_sendActivityInvitation
  | K_respondToInvitation.

Inductive Exception :=
  | TypeError (reading : string)     (* a property of null or undefined *)
  | SyntaxError                      (* JSON.parse, response.json() *)
  | FetchFailed.                     (* fetch rejected: no response at all *)

Inductive LogEntry :=
  | Log (s : string)                         (* console.log *)
  | Error (s : string) (e : Exception)       (* console.error *)
  | ErrorEvent (s : string)                  (* console.error of an event *)
  | Uncaught (e : Exception).                (* reported by the event loop *)

Inductive Callback :=
  | Reconnect                           (* () => this.connectWebSocket() *)
  | RemoveNotification (serial : nat).  (* () => notification.remove() *)

Record World := {
  app : App;
  dom : Dom;
  localStorage : gmap string string;
  fetched : list (Request * Continuation);
  alerts : list string;
  console : list LogEntry;
  timers : list (Z * Callback);
  sockets : list WebSocket;
  listening : bool;           (* setupEventListeners has run *)
  created : nat               (* notification elements created so far *)
}.

Definition set_app (f : App → App) (w : World) : World :=
  {| app := f (app w); dom := dom w; localStorage := localStorage w;
     fetched := fetched w; alerts := alerts w; console := console w;
     timers := timers w; sockets := sockets w; listening := listening w;
     created := created w |}.

Definition set_dom (f : Dom → Dom) (w : World) : World :=
  {| app := app w; dom := f (dom w); localStorage := localStorage w;
     fetched := fetched w; alerts := alerts w; console := console w;
     timers := timers w; sockets := sockets w; listening := listening w;
     created := created w |}.

Definition set_localStorage (f : gmap string string → gmap string string)
    (w : World) : World :=
  {| app := app w; dom := dom w; localStorage := f (localStorage w);
     fetched := fetched w; alerts := alerts w; console := console w;
     timers := timers w; sockets := sockets w; listening := listening w;
     created := created w |}.

Definition add_fetched (r : Request) (k : Continuation) (w : World) : World :=
  {| app := app w; dom := dom w; localStorage := localStorage w;
     fetched := fetched w ++ [(r, k)]; alerts := alerts w; console := console w;
     timers := timers w; sockets := sockets w; listening := listening w;
     created := created w |}.

Definition add_alert (s : string) (w : World) : World :=
  {| app := app w; dom := dom w; localStorage := localStorage w;
     fetched := fetched w; alerts := alerts w ++ [s]; console := console w;
     timers := timers w; sockets := sockets w; listening := listening w;
     created := created w |}.

Definition add_console (l : LogEntry) (w : World) : World :=
  {| app := app w; dom := dom w; localStorage := localStorage w;
     fetched := fetched w; alerts := alerts w; console := console w ++ [l];
     timers := timers w; sockets := sockets w; listening := listening w;
     created := created w |}.

Definition add_timer (ms : Z) (cb : Callback) (w : World) : World :=
  {| app := app w; dom := dom w; localStorage := localStorage w;
     fetched := fetched w; alerts := alerts w; console := console w;
     timers := timers w ++ [(ms, cb)]; sockets := sockets w;
     listening := listening w; created := created w |}.

Definition add_socket (s : WebSocket) (w : World) : World :=
  {| app := app w; dom := dom w; localStorage := localStorage w;
     fetched := fetched w; alerts := alerts w; console := console w;
     timers := timers w; sockets := sockets w ++ [s]; listening := listening w;
     created := created w |}.

Definition set_listening (b : bool) (w : World) : World :=
  {| app := app w; dom := dom w; localStorage := localStorage w;
     fetched := fetched w; alerts := alerts w; console := console w;
     timers := timers w; sockets := sockets w; listening := b;
     created := created w |}.

Definition bump_created (w : World) : World :=
  {| app := app w; dom := dom w; localStorage := localStorage w;
     fetched := fetched w; alerts := alerts w; console := console w;
     timers := timers w; sockets := sockets w; listening := listening w;
     created := S (created w) |}.

(** Assignments to the fields of [this]. *)

Definition with_currentUser (v : option User) (a : App) : App :=
  {| currentUser := v; websocket := websocket a; contacts := contacts a;
     currentPrivateChatUser := currentPrivateChatUser a;
     selectedActivity := selectedActivity a;
     invitationTargetUser := invitationTargetUser a;
     currentInvitation := currentInvitation a |}.

Definition with_websocket (v : option WebSocket) (a : App) : App :=
  {| currentUser := currentUser a; websocket := v; contacts := contacts a;
     currentPrivateChatUser := currentPrivateChatUser a;
     selectedActivity := selectedActivity a;
     invitationTargetUser := invitationTargetUser a;
     currentInvitation := currentInvitation a |}.

Definition with_contacts (v : ContactsValue) (a : App) : App :=
  {| currentUser := currentUser a; websocket := websocket a; contacts := v;
     currentPrivateChatUser := currentPrivateChatUser a;
     selectedActivity := selectedActivity a;
     invitationTargetUser := invitationTargetUser a;
     currentInvitation := currentInvitation a |}.

Definition with_currentPrivateChatUser (v : option User) (a : App) : App :=
  {| currentUser := currentUser a; websocket := websocket a;
     contacts := contacts a; currentPrivateChatUser := v;
     selectedActivity := selectedActivity a;
     invitationTargetUser := invitationTargetUser a;
     currentInvitation := currentInvitation a |}.

Definition with_selectedActivity (v : option string) (a : App) : App :=
  {| currentUser := currentUser a; websocket := websocket a;
     contacts := contacts a;
     currentPrivateChatUser := currentPrivateChatUser a;
     selectedActivity := v;
     invitationTargetUser := invitationTargetUser a;
     currentInvitation := currentInvitation a |}.

Definition with_invitationTargetUser (v : option User) (a : App) : App :=
  {| currentUser := currentUser a; websocket := websocket a;
     contacts := contacts a;
     currentPrivateChatUser := currentPrivateChatUser a;
     selectedActivity := selectedActivity a;
     invitationTargetUser := v;
     currentInvitation := currentInvitation a |}.

Definition with_currentInvitation (v : option Invitation) (a : App) : App :=
  {| currentUser := currentUser a; websocket := websocket a;
     contacts := contacts a;
     currentPrivateChatUser := currentPrivateChatUser a;
     selectedActivity := selectedActivity a;
     invitationTargetUser := invitationTargetUser a;
     currentInvitation := v |}.

(** Updates of the document. *)

Definition with_classes (f : gmap string (gset string) → gmap string (gset string))
    (d : Dom) : Dom :=
  {| classes := f (classes d); text := text d; src := src d; value := value d;
     children := children d; invite_btn_selected := invite_btn_selected d;
     activity_item_selected := activity_item_selected d |}.

Definition with_text (f : gmap string string → gmap string string) (d : Dom) : Dom :=
  {| classes := classes d; text := f (text d); src := src d; value := value d;
     children := children d; invite_btn_selected := invite_btn_selected d;
     activity_item_selected := activity_item_selected d |}.

Definition with_src (f : gmap string string → gmap string string) (d : Dom) : Dom :=
  {| classes := classes d; text := text d; src := f (src d); value := value d;
     children := children d; invite_btn_selected := invite_btn_selected d;
     activity_item_selected := activity_item_selected d |}.

Definition with_value (f : gmap string string → gmap string string) (d : Dom) : Dom :=
  {| classes := classes d; text := text d; src := src d; value := f (value d);
     children := children d; invite_btn_selected := invite_btn_selected d;
     activity_item_selected := activity_item_selected d |}.

Definition with_children (f : gmap string (list Node) → gmap string (list Node))
    (d : Dom) : Dom :=
  {| classes := classes d; text := text d; src := src d; value := value d;
     children := f (children d); invite_btn_selected := invite_btn_selected d;
     activity_item_selected := activity_item_selected d |}.

Definition with_invite_btn_selected (v : gset string) (d : Dom) : Dom :=
  {| classes := classes d; text := text d; src := src d; value := value d;
     children := children d; invite_btn_selected := v;
     activity_item_selected := activity_item_selected d |}.

Definition with_activity_item_selected (v : gset string) (d : Dom) : Dom :=
  {| classes := classes d; text := text d; src := src d; value := value d;
     children := children d; invite_btn_selected := invite_btn_selected d;
     activity_item_selected := v |}.

(** Reading the document. *)

Definition classList (d : Dom) (id : string) : gset string :=
  default ∅ (classes d !! id).

Definition hidden (d : Dom) (id : string) : bool :=
  bool_decide ("hidden" ∈ classList d id).

Definition value_of (d : Dom) (id : string) : string :=
  default "" (value d !! id).

Definition children_of (d : Dom) (id : string) : list Node :=
  default [] (children d !! id).

(** ** Computations

    A method body is a function of the world that either returns or throws;
    what it did before throwing stays done. *)

Inductive Result (A : Type) :=
  | Ok (a : A) (w : World)
  | Raise (e : Exception) (w : World).

Arguments Ok {A} a w.
Arguments Raise {A} e w.

Definition M (A : Type) : Type := World → Result A.

Definition ret {A} (a : A) : M A := fun w => Ok a w.

Definition bind {A B} (c : M A) (k : A → M B) : M B :=
  fun w => match c w with
           | Ok a w' => k a w'
           | Raise e w' => Raise e w'
           end.

Definition throw {A} (e : Exception) : M A := fun w => Raise e w.

(** [try { c } catch (error) { h error }] *)
Definition try_catch (c : M unit) (h : Exception → M unit) : M unit :=
  fun w => match c w with
           | Ok a w' => Ok a w'
           | Raise e w' => h e w'
           end.

Definition modify (f : World → World) : M unit := fun w => Ok tt (f w).

Definition gets {A} (f : World → A) : M A := fun w => Ok (f w) w.

Declare Scope js_scope.
Delimit Scope js_scope with js.
Bind Scope js_scope with M.

Notation "'let*' x := c 'in' k" := (bind c (fun x => k))
  (at level 10, x name, c at level 100, k at level 200) : js_scope.
Notation "c ;; k" := (bind c (fun _ => k))
  (at level 100, k at level 200, right associativity) : js_scope.

Local Open Scope js_scope.

(** [list.forEach(f)] *)
Fixpoint forEach {A} (f : A → M unit) (l : list A) : M unit :=
  match l with
  | [] => ret tt
  | x :: l' => f x ;; forEach f l'
  end.

(** The world a computation leaves behind, however it ended. *)
Definition world_of {A} (r : Result A) : World :=
  match r with Ok _ w => w | Raise _ w => w end.

(** An exception nothing catches: the event loop reports it and goes on.
    The same holds for the rejection of a promise nothing awaits. *)
Definition report {A} (r : Result A) : World :=
  match r with
  | Ok _ w => w
  | Raise e w => add_console (Uncaught e) w
  end.

(** A call of an [async] method whose promise is dropped: the caller goes on
    whatever happens inside. *)
Definition detached (c : M unit) : M unit := fun w => Ok tt (report (c w)).

(** *** Browser primitives *)

Definition classList_add (id c : string) : M unit :=
  modify (set_dom (fun d => with_classes <[id := classList d id ∪ {[c]}]> d)).

Definition classList_remove (id c : string) : M unit :=
  modify (set_dom (fun d => with_classes <[id := classList d id ∖ {[c]}]> d)).

Definition set_className (id : string) (cs : list string) : M unit :=
  modify (set_dom (with_classes <[id := list_to_set cs]>)).

Definition set_textContent (id s : string) : M unit :=
  modify (set_dom (with_text <[id := s]>)).

Definition set_src (id s : string) : M unit :=
  modify (set_dom (with_src <[id := s]>)).

Definition set_value (id s : string) : M unit :=
  modify (set_dom (with_value <[id := s]>)).

Definition get_value (id : string) : M string :=
  gets (fun w => value_of (dom w) id).

Definition set_innerHTML (id : string) (ns : list Node) : M unit :=
  modify (set_dom (with_children <[id := ns]>)).

Definition appendChild (id : string) (n : Node) : M unit :=
  modify (set_dom (fun d => with_children <[id := children_of d id ++ [n]]> d)).

Definition fetch (r : Request) (k : Continuation) : M unit :=
  modify (add_fetched r k).

Definition alert (s : string) : M unit := modify (add_alert s).

Definition console_log (s : string) : M unit := modify (add_console (Log s)).

Definition console_error (s : string) (e : Exception) : M unit :=
  modify (add_console (Error s e)).

Definition setTimeout (cb : Callback) (ms : Z) : M unit :=
  modify (add_timer ms cb).

Definition assign (f : App → App) : M unit := modify (set_app f).

(** [this.currentUser.x]: a [TypeError] when [this.currentUser] is null. *)
Definition this_currentUser : M User :=
  fun w => match currentUser (app w) with
           | Some u => Ok u w
           | None => Raise (TypeError "currentUser") w
           end.

(** How a request settles: [fetch] rejects, or a response arrives with its
    [ok] flag and a body that [response.json()] can read ([Some]) or not. *)
Inductive Settled (A : Type) :=
  | Rejected
  | Response (ok : bool) (json : option A).

Arguments Rejected {A}.
Arguments Response {A} ok json.

Record LoginResult := {
  result_user : option User;     (* [result.user] when it is a user *)
  result_user_null : bool;       (* [result.user] is there and is [null];
                                    read only when [result_user] is [None] *)
  result_detail : option string;
  result_message : option string
}.

Record ErrorResult := {
  error_detail : option string
}.

(** [a || b] on values that are strings or undefined. *)
Definition or_else (a : option string) (b : string) : string :=
  match a with
  | Some s => if Js.truthy s then s else b
  | None => b
  end.

(** A value that is a string or undefined, inside a concatenation. *)
Definition shown (a : option string) : string := default "undefined" a.

(** What the browser provides and the sources do not define. *)
Record Host := {
  JSON_parse_envelope : string → option Envelope;  (* JSON.parse of a frame *)
  JSON_parse_user : string → option User;          (* JSON.parse of the record *)
  JSON_stringify_user : User → string;             (* JSON.stringify of a user *)
  toLocaleTimeString : string → string;    (* new Date(t).toLocaleTimeString *)
  location_protocol : string;
  location_host : string
}.

(** ** The methods of [ChatWithMeApp] *)

Section ChatWithMeApp.

Variable host : Host.

Definition storage_key : string := "chatwithme_user".

Definition GET (u : string) : Request :=
  {| req_method := "GET"; req_url := u; req_body := NoBody |}.

Definition POST (u : string) (b : Body) : Request :=
  {| req_method := "POST"; req_url := u; req_body := b |}.

Definition showLoginModal : M unit :=
  classList_remove "login-modal" "hidden" ;;
  classList_add "main-interface" "hidden".

Definition updateChatWindowVisibility : M unit :=
  let* u := this_currentUser in
  if bool_decide (chat_side u = "chatwithme") then
    classList_add "chatwithme-window" "active" ;;
    classList_remove "towhomilovethemost-window" "active"
  else
    classList_remove "chatwithme-window" "active" ;;
    classList_add "towhomilovethemost-window" "active".

Definition wsUrl (u : User) : string :=
  (if bool_decide (location_protocol host = "https:") then "wss:" else "ws:")
  +:+ "//" +:+ location_host host +:+ "/ws/" +:+ user_id u.

(** The four handlers of the socket are closures over [this]; they are the
    definitions [ws_onopen], [ws_onmessage], [ws_onclose], [ws_onerror]. *)
Definition connectWebSocket : M unit :=
  let* u := this_currentUser in
  let* n := gets (fun w => length (sockets w)) in
  let ws := {| ws_serial := n; ws_url := wsUrl u |} in
  modify (add_socket ws) ;;
  assign (with_websocket (Some ws)).

Definition createMessageElement (message : Message) (isFromCurrentUser : bool)
    : MessageElement :=
  {| el_sent := isFromCurrentUser;
     el_avatar_src := avatar_url (sender message);
     el_avatar_alt := username (sender message);
     el_sender := username (sender message);
     el_time := toLocaleTimeString host (timestamp message);
     el_text := content message |}.

Definition addMessageToChat (message : Message) (type : string) : M unit :=
  let* u := this_currentUser in
  let isFromCurrentUser :=
    bool_decide (user_id (sender message) = user_id u) in
  if bool_decide (type = "public") then
    let messageElement := createMessageElement message isFromCurrentUser in
    appendChild "chatwithme-messages" (MessageNode messageElement) ;;
    appendChild "towhomilovethemost-messages" (MessageNode messageElement)
  else
    let messageElement := createMessageElement message isFromCurrentUser in
    appendChild "private-messages" (MessageNode messageElement).

Definition handleNewMessage (message : Message) : M unit :=
  if is_public message then addMessageToChat message "public"
  else addMessageToChat message "private".

Definition handleActivityInvitation (invitation : Invitation) : M unit :=
  assign (with_currentInvitation (Some invitation)) ;;
  set_innerHTML "invitation-content"
    [InvitationDetails (avatar_url (from_user invitation))
       (username (from_user invitation)) (activity invitation)
       (match inv_message invitation with
        | Some m => if Js.truthy m then Some m else None
        | None => None
        end)] ;;
  classList_remove "invitation-modal" "hidden".

Definition showNotification (message : string) : M unit :=
  let* n := gets created in
  modify bump_created ;;
  appendChild "body" (NotificationNode n message) ;;
  setTimeout (RemoveNotification n) 5000.

Definition handleInvitationResponse (response : InvitationResponse) : M unit :=
  let message :=
    if accepted response then
      username (responder response) +:+ " accepted your "
        +:+ resp_activity response +:+ " invitation!"
    else
      username (responder response) +:+ " declined your "
        +:+ resp_activity response +:+ " invitation." in
  showNotification message.

Definition handleWebSocketMessage (data : Envelope) : M unit :=
  match data with
  | NewMessage message => handleNewMessage message
  | ActivityInvitation invitation => handleActivityInvitation invitation
  | InvitationResponded response => handleInvitationResponse response
  | OtherType _ => ret tt
  | JsonNull => throw (TypeError "type")
  end.

Definition ws_onopen : M unit := console_log "WebSocket connected".

Definition ws_onmessage (event_data : string) : M unit :=
  match JSON_parse_envelope host event_data with
  | None => throw SyntaxError
  | Some data => handleWebSocketMessage data
  end.

Definition ws_onclose : M unit :=
  console_log "WebSocket disconnected, attempting to reconnect..." ;;
  setTimeout Reconnect 3000.

Definition ws_onerror : M unit :=
  modify (add_console (ErrorEvent "WebSocket error:")).

(** *** Sending messages *)

Definition sendPublicMessage (chatSide : string) : M unit :=
  let* v := get_value (chatSide +:+ "-input") in
  let message := Js.trim v in
  if negb (Js.truthy message) then ret tt
  else
    try_catch
      (let* u := this_currentUser in
       fetch
         (POST "/messages/send"
            (UrlEncoded ("sender_id=" +:+ user_id u +:+ "&content="
               +:+ Js.encodeURIComponent message +:+ "&is_public=true")))
         (K_sendPublicMessage chatSide))
      (fun error => console_error "Error sending message:" error).

Definition sendPublicMessage_settled (chatSide : string) (o : Settled unit)
    : M unit :=
  try_catch
    (match o with
     | Rejected => throw FetchFailed
     | Response ok _ =>
         if ok then set_value (chatSide +:+ "-input") "" else ret tt
     end)
    (fun error => console_error "Error sending message:" error).

Definition sendPrivateMessage : M unit :=
  let* v := get_value "private-message-input" in
  let message := Js.trim v in
  let* peer := gets (fun w => currentPrivateChatUser (app w)) in
  match peer with
  | None => ret tt
  | Some p =>
      if negb (Js.truthy message) then ret tt
      else
        try_catch
          (let* u := this_currentUser in
           fetch
             (POST "/messages/send"
                (UrlEncoded ("sender_id=" +:+ user_id u +:+ "&content="
                   +:+ Js.encodeURIComponent message +:+ "&recipient_id="
                   +:+ user_id p +:+ "&is_public=false")))
             K_sendPrivateMessage)
          (fun error => console_error "Error sending private message:" error)
  end.

Definition sendPrivateMessage_settled (o : Settled unit) : M unit :=
  try_catch
    (match o with
     | Rejected => throw FetchFailed
     | Response ok _ =>
         if ok then set_value "private-message-input" "" else ret tt
     end)
    (fun error => console_error "Error sending private message:" error).

(** *** Contacts, the private chat and the invitation draft *)

Definition createContactBubble (contact : Contact) : ContactBubble :=
  {| bubble_user_id := user_id (contact_user contact);
     bubble_avatar_src := avatar_url (contact_user contact);
     bubble_name := username (contact_user contact);
     bubble_summary := summary contact;
     bubble_side := chat_side (contact_user contact) |}.

Definition renderContacts : M unit :=
  set_innerHTML "chatwithme-contacts" [] ;;
  set_innerHTML "towhomilovethemost-contacts" [] ;;
  let* cs := gets (fun w => contacts (app w)) in
  match cs with
  | ContactList l =>
      forEach
        (fun contact =>
           let contactBubble := createContactBubble contact in
           appendChild "chatwithme-contacts" (ContactNode contactBubble) ;;
           appendChild "towhomilovethemost-contacts" (ContactNode contactBubble))
        l
  | NotAnArray => throw (TypeError "forEach")
  end.

(** [this.contacts.find(c => c.user.id === userId)] *)
Definition find_contact (userId : string) (cs : list Contact) : option Contact :=
  List.find (fun c => bool_decide (user_id (contact_user c) = userId)) cs.

Definition loadPrivateMessages (userId : string) : M unit :=
  set_innerHTML "private-messages" [HistoryPlaceholder].

Definition openPrivateChat (user : User) : M unit :=
  assign (with_currentPrivateChatUser (Some user)) ;;
  set_textContent "private-chat-title" ("Chat with " +:+ username user) ;;
  classList_remove "private-chat-modal" "hidden" ;;
  loadPrivateMessages (user_id user).

Definition closePrivateChat : M unit :=
  classList_add "private-chat-modal" "hidden" ;;
  assign (with_currentPrivateChatUser None).

Definition openActivitySelectionModal (user : User) : M unit :=
  assign (with_invitationTargetUser (Some user)) ;;
  set_textContent "invite-target-user" (username user) ;;
  classList_remove "activity-selection-modal" "hidden" ;;
  modify (set_dom (with_invite_btn_selected ∅)) ;;
  assign (with_selectedActivity None).

Definition closeActivitySelectionModal : M unit :=
  classList_add "activity-selection-modal" "hidden" ;;
  assign (with_invitationTargetUser None) ;;
  assign (with_selectedActivity None).

(** [target_is_avatar]: the click landed on the avatar inside the bubble. *)
Definition handleContactClick (target_is_avatar : bool) (userId : string)
    : M unit :=
  if target_is_avatar then ret tt
  else
    let* cs := gets (fun w => contacts (app w)) in
    match cs with
    | ContactList l =>
        match find_contact userId l with
        | Some contact => openPrivateChat (contact_user contact)
        | None => ret tt
        end
    | NotAnArray => throw (TypeError "find")
    end.

Definition handleAvatarClick (userId : string) : M unit :=
  let* cs := gets (fun w => contacts (app w)) in
  match cs with
  | ContactList l =>
      match find_contact userId l with
      | Some contact => openActivitySelectionModal (contact_user contact)
      | None => ret tt
      end
  | NotAnArray => throw (TypeError "find")
  end.

Definition handleActivityClick (act : string) : M unit :=
  modify (set_dom (with_activity_item_selected {[act]})) ;;
  console_log ("Selected activity: " +:+ act).

(** The click listener of each [.activity-invite-btn]. *)
Definition inviteBtnClick (act : string) : M unit :=
  modify (set_dom (with_invite_btn_selected {[act]})) ;;
  assign (with_selectedActivity (Some act)).

(** [!this.selectedActivity || !this.invitationTargetUser] *)
Definition draft (a : App) : option (string * User) :=
  match selectedActivity a, invitationTargetUser a with
  | Some act, Some target =>
      if Js.truthy act then Some (act, target) else None
  | _, _ => None
  end.

Definition sendActivityInvitation : M unit :=
  let* d := gets (fun w => draft (app w)) in
  match d with
  | None => alert "Please select an activity"
  | Some (act, target) =>
      let* v := get_value "invitation-message-input" in
      let message := Js.trim v in
      try_catch
        (let* u := this_currentUser in
         fetch
           (POST "/activities/invite"
              (UrlEncoded ("from_user_id=" +:+ user_id u +:+ "&to_user_id="
                 +:+ user_id target +:+ "&activity_name=" +:+ act
                 +:+ "&message=" +:+ Js.encodeURIComponent message)))
           K_sendActivityInvitation)
        (fun error =>
           console_error "Error sending invitation:" error ;;
           alert "Failed to send invitation")
  end.

Definition sendActivityInvitation_settled (o : Settled ErrorResult) : M unit :=
  try_catch
    (match o with
     | Rejected => throw FetchFailed
     | Response true _ =>
         alert "Invitation sent!" ;;
         closeActivitySelectionModal ;;
         set_value "invitation-message-input" ""
     | Response false None => throw SyntaxError
     | Response false (Some error) =>
         alert ("Failed to send invitation: " +:+ shown (error_detail error))
     end)
    (fun error =>
       console_error "Error sending invitation:" error ;;
       alert "Failed to send invitation").

Definition respondToInvitation (accept : bool) : M unit :=
  let* inv := gets (fun w => currentInvitation (app w)) in
  match inv with
  | None => ret tt
  | Some invitation =>
      try_catch
        (let* u := this_currentUser in
         fetch
           (POST ("/activities/invitations/" +:+ inv_id invitation +:+ "/respond")
              (UrlEncoded ("user_id=" +:+ user_id u +:+ "&accept="
                 +:+ Js.of_bool accept)))
           K_respondToInvitation)
        (fun error => console_error "Error responding to invitation:" error)
  end.

Definition respondToInvitation_settled (o : Settled unit) : M unit :=
  try_catch
    (match o with
     | Rejected => throw FetchFailed
     | Response ok _ =>
         if ok then
           classList_add "invitation-modal" "hidden" ;;
           assign (with_currentInvitation None)
         else ret tt
     end)
    (fun error => console_error "Error responding to invitation:" error).

(** *** Loading, the main interface, login and start-up *)

Definition loadPublicMessages : M unit :=
  try_catch
    (fetch (GET "/messages/public") K_loadPublicMessages)
    (fun error => console_error "Error loading messages:" error).

(** The end of [loadPublicMessages], then the end of [showMainInterface],
    which awaited it. *)
Definition loadPublicMessages_settled (o : Settled (list Message)) : M unit :=
  try_catch
    (match o with
     | Rejected => throw FetchFailed
     | Response _ None => throw SyntaxError
     | Response _ (Some messages) =>
         forEach (fun message => addMessageToChat message "public") messages
     end)
    (fun error => console_error "Error loading messages:" error) ;;
  updateChatWindowVisibility.

(** [loadContacts] up to its request.  When the request cannot even be
    built the error is caught and [showMainInterface], which awaited
    [loadContacts], goes on to [loadPublicMessages]. *)
Definition loadContacts : M unit :=
  fun w =>
    match this_currentUser w with
    | Ok u w' =>
        fetch (GET ("/users/" +:+ user_id u +:+ "/contacts")) K_loadContacts w'
    | Raise error w' =>
        (console_error "Error loading contacts:" error ;; loadPublicMessages) w'
    end.

(** The body is assigned to [this.contacts] whatever it is, and whatever
    the status; [renderContacts] then empties both lists before it reads
    it. *)
Definition loadContacts_settled (o : Settled ContactsValue) : M unit :=
  try_catch
    (match o with
     | Rejected => throw FetchFailed
     | Response _ None => throw SyntaxError
     | Response _ (Some cs) => assign (with_contacts cs) ;; renderContacts
     end)
    (fun error => console_error "Error loading contacts:" error) ;;
  loadPublicMessages.

Definition showMainInterface : M unit :=
  classList_add "login-modal" "hidden" ;;
  classList_remove "main-interface" "hidden" ;;
  let* u := this_currentUser in
  set_src "current-user-avatar" (avatar_url u) ;;
  set_textContent "current-user-name" (username u) ;;
  set_textContent "current-chat-side" (chat_side u) ;;
  set_className "current-chat-side" ["chat-side-badge"; chat_side u] ;;
  connectWebSocket ;;
  loadContacts.

Definition handleLogin : M unit :=
  let* v := get_value "username" in
  let name := Js.trim v in
  if negb (Js.truthy name) then ret tt
  else
    try_catch
      (fetch (POST "/users/create" (FormData [("username", name)]))
         K_handleLogin)
      (fun error =>
         console_error "Login error:" error ;;
         alert "Failed to connect to server").

Definition handleLogin_settled (o : Settled LoginResult) : M unit :=
  try_catch
    (match o with
     | Rejected => throw FetchFailed
     | Response _ None => throw SyntaxError
     | Response true (Some result) =>
         assign (with_currentUser (result_user result)) ;;
         modify (set_localStorage
                   <[storage_key :=
                       match result_user result with
                       | Some u => JSON_stringify_user host u
                       | None =>
                           if result_user_null result then "null"
                           else "undefined"
                       end]>) ;;
         detached showMainInterface
     | Response false (Some result) =>
         alert ("Failed to create user: "
                +:+ or_else (result_detail result)
                      (or_else (result_message result)
                         "Unknown error occurred"))
     end)
    (fun error =>
       console_error "Login error:" error ;;
       alert "Failed to connect to server").

Definition setupEventListeners : M unit := modify (set_listening true).

Definition init : M unit :=
  let* savedUser := gets (fun w => localStorage w !! storage_key) in
  match savedUser with
  | Some s =>
      if Js.truthy s then
        match JSON_parse_user host s with
        | Some u =>
            assign (with_currentUser (Some u)) ;;
            detached showMainInterface
        | None => throw SyntaxError
        end
      else showLoginModal
  | None => showLoginModal
  end ;;
  setupEventListeners.

Definition new_App : App :=
  {| currentUser := None; websocket := None; contacts := ContactList [];
     currentPrivateChatUser := None; selectedActivity := None;
     invitationTargetUser := None; currentInvitation := None |}.

(** [new ChatWithMeApp()] *)
Definition constructor : M unit :=
  assign (fun _ => new_App) ;;
  detached init.

(** *** The event loop

    One event is handled to completion before the next.  The pending
    requests and timers are those the class has started and that have
    not settled or fired yet. *)

Inductive Event :=
  | DOMContentLoaded
  | Typed (id s : string)                (* the user edits an input *)
  | SubmitLogin
  | Send (chatSide : string)             (* click on send, or Enter *)
  | SendPrivate
  | ClosePrivateChat
  | ContactClick (userId : string)
  | AvatarClick (userId : string)
  | ActivityClick (act : string)
  | InviteBtnClick (act : string)
  | SendInvitation
  | CancelInvitation
  | Accept
  | Decline
  | SocketOpen (serial : nat)
  | SocketMessage (serial : nat) (data : string)
  | SocketClose (serial : nat)
  | SocketError (serial : nat)
  | TimerFired (index : nat)
  | LoginSettled (o : Settled LoginResult)
  | ContactsSettled (o : Settled ContactsValue)
  | PublicMessagesSettled (o : Settled (list Message))
  | SendPublicSettled (chatSide : string) (o : Settled unit)
  | SendPrivateSettled (o : Settled unit)
  | InvitationSettled (o : Settled ErrorResult)
  | RespondSettled (o : Settled unit).

#[local] Instance Continuation_eq_dec : EqDecision Continuation.
Proof. solve_decision. Defined.

(** Take the oldest pending request that waits with [k]. *)
Fixpoint take (k : Continuation) (l : list (Request * Continuation))
    : option (list (Request * Continuation)) :=
  match l with
  | [] => None
  | p :: l' =>
      if bool_decide (p.2 = k) then Some l'
      else (fun r => p :: r) <$> take k l'
  end.

Definition set_fetched (l : list (Request * Continuation)) (w : World) : World :=
  {| app := app w; dom := dom w; localStorage := localStorage w;
     fetched := l; alerts := alerts w; console := console w;
     timers := timers w; sockets := sockets w; listening := listening w;
     created := created w |}.

Definition set_timers (l : list (Z * Callback)) (w : World) : World :=
  {| app := app w; dom := dom w; localStorage := localStorage w;
     fetched := fetched w; alerts := alerts w; console := console w;
     timers := l; sockets := sockets w; listening := listening w;
     created := created w |}.

Definition is_notification (n : nat) (x : Node) : bool :=
  match x with
  | NotificationNode m _ => bool_decide (m = n)
  | _ => false
  end.

Definition run_callback (cb : Callback) : M unit :=
  match cb with
  | Reconnect => connectWebSocket
  | RemoveNotification n =>
      modify (set_dom (fun d =>
        with_children
          <["body" := List.filter (fun x => negb (is_notification n x))
                        (children_of d "body")]> d))
  end.

Definition is_bubble_of (userId : string) (x : Node) : bool :=
  match x with
  | ContactNode b => bool_decide (bubble_user_id b = userId)
  | _ => false
  end.

(** Some bubble of the two contact lists carries this [data-user-id]. *)
Definition bubble_shown (userId : string) (w : World) : bool :=
  existsb (is_bubble_of userId)
    (children_of (dom w) "chatwithme-contacts"
     ++ children_of (dom w) "towhomilovethemost-contacts").

Definition settled (k : Continuation) (c : M unit) (w : World) : World :=
  match take k (fetched w) with
  | Some l => report (c (set_fetched l w))
  | None => w
  end.

Definition on_ui (c : M unit) (w : World) : World :=
  if listening w then report (c w) else w.

Definition on_socket (serial : nat) (c : M unit) (w : World) : World :=
  if bool_decide (serial < length (sockets w))%nat then report (c w) else w.

Definition step (ev : Event) (w : World) : World :=
  match ev with
  | DOMContentLoaded => report (constructor w)
  | Typed id s => set_dom (with_value <[id := s]>) w
  | SubmitLogin => on_ui handleLogin w
  | Send chatSide => on_ui (sendPublicMessage chatSide) w
  | SendPrivate => on_ui sendPrivateMessage w
  | ClosePrivateChat => on_ui closePrivateChat w
  | ContactClick userId =>
      if bubble_shown userId w then on_ui (handleContactClick false userId) w
      else w
  | AvatarClick userId =>
      if bubble_shown userId w then on_ui (handleAvatarClick userId) w
      else w
  | ActivityClick act => on_ui (handleActivityClick act) w
  | InviteBtnClick act => on_ui (inviteBtnClick act) w
  | SendInvitation => on_ui sendActivityInvitation w
  | CancelInvitation => on_ui closeActivitySelectionModal w
  | Accept => on_ui (respondToInvitation true) w
  | Decline => on_ui (respondToInvitation false) w
  | SocketOpen n => on_socket n ws_onopen w
  | SocketMessage n data => on_socket n (ws_onmessage data) w
  | SocketClose n => on_socket n ws_onclose w
  | SocketError n => on_socket n ws_onerror w
  | TimerFired i =>
      match timers w !! i with
      | Some (_, cb) =>
          report (run_callback cb (set_timers (delete i (timers w)) w))
      | None => w
      end
  | LoginSettled o => settled K_handleLogin (handleLogin_settled o) w
  | ContactsSettled o => settled K_loadContacts (loadContacts_settled o) w
  | PublicMessagesSettled o =>
      settled K_loadPublicMessages (loadPublicMessages_settled o) w
  | SendPublicSettled chatSide o =>
      settled (K_sendPublicMessage chatSide)
        (sendPublicMessage_settled chatSide o) w
  | SendPrivateSettled o =>
      settled K_sendPrivateMessage (sendPrivateMessage_settled o) w
  | InvitationSettled o =>
      settled K_sendActivityInvitation (sendActivityInvitation_settled o) w
  | RespondSettled o =>
      settled K_respondToInvitation (respondToInvitation_settled o) w
  end.

Definition run (evs : list Event) (w : World) : World :=
  foldl (fun w ev => step ev w) w evs.

End ChatWithMeApp.

(** ** A concrete session

    Three users, and a host whose [JSON.parse] reads the frames and the
    stored record listed here and rejects every other text. *)

Module Demo.

Definition alice : User :=
  {| user_id := "u-alice"; username := "alice";
     avatar_url := "/avatars/alice.png"; chat_side := "chatwithme" |}.

Definition bob : User :=
  {| user_id := "u-bob"; username := "bob";
     avatar_url := "/avatars/bob.png"; chat_side := "towhomilovethemost" |}.

Definition carol : User :=
  {| user_id := "u-carol"; username := "carol";
     avatar_url := "/avatars/carol.png"; chat_side := "chatwithme" |}.

Definition hello_all : Message :=
  {| sender := bob; recipient := None; content := "hello all";
     timestamp := "2024-05-01T10:15:00Z"; is_public := true |}.

Definition carol_to_alice : Message :=
  {| sender := carol; recipient := Some alice; content := "psst";
     timestamp := "2024-05-01T10:16:00Z"; is_public := false |}.

Definition chess : Invitation :=
  {| inv_id := "X"; from_user := bob; to_user := alice;
     activity := "chess"; inv_message := None |}.

Definition hiking : Invitation :=
  {| inv_id := "Y"; from_user := carol; to_user := alice;
     activity := "hiking"; inv_message := Some "this weekend?" |}.

Definition frames : gmap string Envelope :=
  {[ "frame:hello" := NewMessage hello_all;
     "frame:psst" := NewMessage carol_to_alice;
     "frame:chess" := ActivityInvitation chess;
     "frame:hiking" := ActivityInvitation hiking ]}.

Definition records : gmap string User :=
  {[ "record:u-alice" := alice; "record:u-bob" := bob;
     "record:u-carol" := carol ]}.

Definition host : Host :=
  {| JSON_parse_envelope := fun s => frames !! s;
     JSON_parse_user := fun s => records !! s;
     JSON_stringify_user := fun u => "record:" +:+ user_id u;
     toLocaleTimeString := fun t => t;
     location_protocol := "https:";
     location_host := "chat.example" |}.

Definition empty_dom : Dom :=
  {| classes := ∅; text := ∅; src := ∅; value := ∅; children := ∅;
     invite_btn_selected := ∅; activity_item_selected := ∅ |}.

(** The page as it is served: nothing stored, nothing running. *)
Definition fresh : World :=
  {| app := new_App; dom := empty_dom; localStorage := ∅; fetched := [];
     alerts := []; console := []; timers := []; sockets := [];
     listening := false; created := 0 |}.

Definition bobs_card : Contact := {| contact_user := bob; summary := "old friend" |}.
Definition carols_card : Contact := {| contact_user := carol; summary := "colleague" |}.

(** alice logs in; her contacts and an empty history arrive. *)
Definition logged_in : World :=
  run host
    [ DOMContentLoaded; Typed "username" " alice "; SubmitLogin;
      LoginSettled (Response true
        (Some {| result_user := Some alice; result_user_null := false;
                 result_detail := None; result_message := None |}));
      SocketOpen 0;
      ContactsSettled
        (Response true (Some (ContactList [bobs_card; carols_card])));
      PublicMessagesSettled (Response true (Some [])) ]
    fresh.

(** and opens the private chat with bob. *)
Definition chatting_with_bob : World :=
  run host [ContactClick "u-bob"] logged_in.

(** bob's invitation to chess has arrived. *)
Definition invited : World :=
  run host [SocketMessage 0 "frame:chess"] logged_in.

(** alice has clicked bob's avatar and picked chess, without a message. *)
Definition drafting : World :=
  run host [AvatarClick "u-bob"; InviteBtnClick "chess"] logged_in.

(** alice has typed into the first room's input. *)
Definition typing : World :=
  run host [Typed "chatwithme-input" " tea & cake = 5? "] logged_in.

(** and has pressed send: the request is on its way. *)
Definition sending : World := run host [Send "chatwithme"] typing.

(** alice has typed into the input of her chat with bob. *)
Definition whispering : World :=
  run host [Typed "private-message-input" "see you at 8"] chatting_with_bob.

End Demo.


(** ** Notions the statements use *)

Section Notions.

Variable host : Host.

Definition set_side (s : string) (u : User) : User :=
  {| user_id := user_id u; username := username u;
     avatar_url := avatar_url u; chat_side := s |}.

Definition set_sender_side (s : string) (m : Message) : Message :=
  {| sender := set_side s (sender m); recipient := recipient m;
     content := content m; timestamp := timestamp m;
     is_public := is_public m |}.

(** The element a message is shown as in the session of [u]. *)
Definition shown_as (m : Message) (u : User) : Node :=
  MessageNode
    (createMessageElement host m
       (bool_decide (user_id (sender m) = user_id u))).

(** The element a room shows for message [m] in the session of [u],
    written out: marked as sent when the sender's id is the user's, with
    the sender's avatar and name, the time of the message as the browser
    prints it, and the content. *)
Definition message_node (m : Message) (u : User) : Node :=
  MessageNode
    {| el_sent := bool_decide (user_id (sender m) = user_id u);
       el_avatar_src := avatar_url (sender m);
       el_avatar_alt := username (sender m);
       el_sender := username (sender m);
       el_time := toLocaleTimeString host (timestamp m);
       el_text := content m |}.

(** Handling the frame made the surface [id] grow by the element of [m]. *)
Definition rendered_into (id : string) (m : Message) (w w' : World) : Prop :=
  ∃ e, children_of (dom w') id = children_of (dom w) id ++ [MessageNode e]
       ∧ el_text e = content m
       ∧ el_sender e = username (sender m).

(** The open private chat is the one with the sender or the recipient. *)
Definition peer_of (m : Message) (w : World) : Prop :=
  ∃ p, currentPrivateChatUser (app w) = Some p
       ∧ (p = sender m ∨ recipient m = Some p).

(** Private isolation as the specification words it: the message reaches
    the private surface exactly when the open chat is with its sender or
    its recipient. *)
Definition private_isolation (m : Message) (w : World) : Prop :=
  rendered_into "private-messages" m w
    (world_of (handleWebSocketMessage host (NewMessage m) w))
  ↔ peer_of m w.

(** What the decision dialog shows of an invitation. *)
Definition details (i : Invitation) : Node :=
  InvitationDetails (avatar_url (from_user i)) (username (from_user i))
    (activity i)
    (match inv_message i with
     | Some m => if Js.truthy m then Some m else None
     | None => None
     end).

(** The request that answers invitation [i] for user [u]. *)
Definition respond_request (i : Invitation) (u : User) (accept : bool)
    : Request :=
  POST ("/activities/invitations/" +:+ inv_id i +:+ "/respond")
    (UrlEncoded ("user_id=" +:+ user_id u +:+ "&accept=" +:+ Js.of_bool accept)).


(** The world without its console. *)
Definition hush (w : World) : World :=
  {| app := app w; dom := dom w; localStorage := localStorage w;
     fetched := fetched w; alerts := alerts w; console := [];
     timers := timers w; sockets := sockets w; listening := listening w;
     created := created w |}.

Definition hush_result {A} (r : Result A) : Result A :=
  match r with
  | Ok a w => Ok a (hush w)
  | Raise e w => Raise e (hush w)
  end.

(** A computation that never reads the console. *)
Definition Silent {A} (c : M A) : Prop :=
  ∀ w, hush_result (c (hush w)) = hush_result (c w).

(** The pending invitation. *)
Definition pending (w : World) : option Invitation :=
  currentInvitation (app w).

(** A computation that leaves the pending invitation as it is. *)
Definition KeepsPending {A} (c : M A) : Prop :=
  ∀ w, pending (world_of (c w)) = pending w.

(** Events other than a reload of the page, an invitation frame and the
    settling of an answer. *)
Definition beside_invitations (ev : Event) : Prop :=
  match ev with
  | DOMContentLoaded => False
  | RespondSettled _ => False
  | SocketMessage _ data =>
      ∀ i, JSON_parse_envelope host data ≠ Some (ActivityInvitation i)
  | _ => True
  end.

(** A user action whose precondition does not hold. *)
Definition unmet (ev : Event) (w : World) : Prop :=
  match ev with
  | SubmitLogin => Js.trim (value_of (dom w) "username") = ""
  | Send chatSide => Js.trim (value_of (dom w) (chatSide +:+ "-input")) = ""
  | SendPrivate =>
      Js.trim (value_of (dom w) "private-message-input") = ""
      ∨ currentPrivateChatUser (app w) = None
  | SendInvitation =>
      selectedActivity (app w) = None ∨ selectedActivity (app w) = Some ""
      ∨ invitationTargetUser (app w) = None
  | Accept | Decline => currentInvitation (app w) = None
  | _ => False
  end.

(** The socket a reconnection opens in world [w]. *)
Definition reopened (u : User) (w : World) : WebSocket :=
  {| ws_serial := length (sockets w); ws_url := wsUrl host u |}.

(** The channel closes and the timer it set fires, [k] times over. *)
Fixpoint reconnect_cycles (k : nat) (w : World) : World :=
  match k with
  | O => w
  | S k' =>
      let closed := step host (SocketClose (length (sockets w) - 1)) w in
      reconnect_cycles k' (step host (TimerFired (length (timers w))) closed)
  end.

End Notions.


(** ** Notions for the rest of the class *)

(** An observation of the world that a computation leaves as it was. *)
Definition Keeps {A B} (f : World → B) (c : M A) : Prop :=
  ∀ w, f (world_of (c w)) = f w.

(** An observation that does not look at the console. *)
Definition Unlogged {B} (f : World → B) : Prop :=
  ∀ l w, f (add_console l w) = f w.

(** The record kept across reloads. *)
Definition stored (w : World) : option string := localStorage w !! storage_key.

(** Who is logged in and what the browser keeps. *)
Definition identity (w : World) : option User * gmap string string :=
  (currentUser (app w), localStorage w).

(** The user the private chat is open with. *)
Definition peer (w : World) : option User := currentPrivateChatUser (app w).

(** What a surface of the document shows. *)
Definition surface (id : string) (w : World) : list Node := children_of (dom w) id.

(** What the two public rooms show. *)
Definition public_surfaces (w : World) : list Node * list Node :=
  (surface "chatwithme-messages" w, surface "towhomilovethemost-messages" w).

(** The element carries the class [active]. *)
Definition active (d : Dom) (id : string) : bool :=
  bool_decide ("active" ∈ classList d id).

(** Events other than a reload and the settling of a login. *)
Definition beside_login (ev : Event) : Prop :=
  match ev with
  | DOMContentLoaded | LoginSettled _ => False
  | _ => True
  end.

(** Events other than a reload, a click on a contact and the closing of the
    private chat. *)
Definition beside_chat_controls (ev : Event) : Prop :=
  match ev with
  | DOMContentLoaded | ContactClick _ | ClosePrivateChat => False
  | _ => True
  end.

(** Events other than a frame of the push channel and the arrival of the
    public history. *)
Definition beside_delivery (ev : Event) : Prop :=
  match ev with
  | SocketMessage _ _ | PublicMessagesSettled _ => False
  | _ => True
  end.

(** What the user does on the page once the listeners are installed. *)
Definition user_action (ev : Event) : Prop :=
  match ev with
  | SubmitLogin | Send _ | SendPrivate | ClosePrivateChat | ContactClick _
  | AvatarClick _ | ActivityClick _ | InviteBtnClick _ | SendInvitation
  | CancelInvitation | Accept | Decline => True
  | _ => False
  end.

(** The characters of a string. *)
Fixpoint chars (s : string) : list Js.ascii :=
  match s with
  | EmptyString => []
  | String c r => c :: chars r
  end.

(** The characters that separate the fields of a form-encoded body, and the
    others a field cannot hold as they are: [&], [=], [+], [#], space. *)
Definition breaks_field (c : Js.ascii) : bool :=
  Js.byte_is 38 c || Js.byte_is 61 c || Js.byte_is 43 c || Js.byte_is 35 c
  || Js.byte_is 32 c.

(** The serial of every notification on the page is below the next one. *)
Definition serials_fresh (w : World) : Prop :=
  ∀ n t, NotificationNode n t ∈ children_of (dom w) "body" → (n < created w)%nat.

(** The notice shown to the one who invited. *)
Definition notice (r : InvitationResponse) : string :=
  username (responder r)
  +:+ (if accepted r then " accepted your " else " declined your ")
  +:+ resp_activity r
  +:+ (if accepted r then " invitation!" else " invitation.").

(** What a failed login tells the user. *)
Definition login_failure_notice (o : Settled LoginResult) : string :=
  match o with
  | Response false (Some r) =>
      "Failed to create user: "
      +:+ or_else (result_detail r)
            (or_else (result_message r) "Unknown error occurred")
  | _ => "Failed to connect to server"
  end.

(** The bubble a contact is listed as. *)
Definition bubble_of (c : Contact) : Node := ContactNode (createContactBubble c).

(** The request for the public history. *)
Definition history_request : Request * Continuation :=
  (GET "/messages/public", K_loadPublicMessages).

(** The document once the private chat has been opened with [u]. *)
Definition chat_opened (u : User) (d : Dom) : Dom :=
  with_children <["private-messages" := [HistoryPlaceholder]]>
    (with_classes
       <["private-chat-modal" := classList d "private-chat-modal" ∖ {["hidden"]}]>
       (with_text <["private-chat-title" := "Chat with " +:+ username u]> d)).

(** The two fields of the invitation draft. *)
Definition draft_fields (w : World) : option string * option User :=
  (selectedActivity (app w), invitationTargetUser (app w)).

(** Events other than a reload, a click on an avatar, on an activity button
    of the dialog or on its cancel button, and the answer to a proposal. *)
Definition beside_dialog (ev : Event) : Prop :=
  match ev with
  | DOMContentLoaded | AvatarClick _ | InviteBtnClick _ | CancelInvitation
  | InvitationSettled _ => False
  | _ => True
  end.


(** ** The model at work *)

Example trim_ex : Js.trim "  hi there 	" = "hi there".
Proof. reflexivity. Qed.

(** A no-break space (C2 A0) in front and an ideographic space (E3 80 80)
    behind are trimmed as well. *)
Example trim_unicode :
  Js.trim
    (String (Js.of_code 194) (String (Js.of_code 160)
       ("go" +:+ String (Js.of_code 227) (String (Js.of_code 128)
                   (String (Js.of_code 128) " ")))))
  = "go".
Proof. reflexivity. Qed.

Example trim_blank : Js.trim "   " = "".
Proof. reflexivity. Qed.

Example enc_ex : Js.encodeURIComponent "a b&c=d/e" = "a%20b%26c%3Dd%2Fe".
Proof. reflexivity. Qed.

Example demo_logged_in :
  currentUser (app Demo.logged_in) = Some Demo.alice
  ∧ fetched Demo.logged_in = []
  ∧ sockets Demo.logged_in
    = [{| ws_serial := 0; ws_url := "wss://chat.example/ws/u-alice" |}]
  ∧ localStorage Demo.logged_in !! "chatwithme_user" = Some "record:u-alice"
  ∧ hidden (dom Demo.logged_in) "login-modal" = true
  ∧ hidden (dom Demo.logged_in) "main-interface" = false
  ∧ console Demo.logged_in = [Log "WebSocket connected"].
Proof. vm_compute. repeat split; reflexivity. Qed.

Example demo_chatting :
  currentPrivateChatUser (app Demo.chatting_with_bob) = Some Demo.bob
  ∧ children_of (dom Demo.chatting_with_bob) "private-messages"
    = [HistoryPlaceholder].
Proof. vm_compute. repeat split; reflexivity. Qed.

Example demo_invited :
  currentInvitation (app Demo.invited) = Some Demo.chess
  ∧ hidden (dom Demo.invited) "invitation-modal" = false
  ∧ fetched (step Demo.host Accept Demo.invited)
    = [(POST "/activities/invitations/X/respond"
          (UrlEncoded "user_id=u-alice&accept=true"), K_respondToInvitation)].
Proof. vm_compute. repeat split; reflexivity. Qed.

Example demo_drafting :
  selectedActivity (app Demo.drafting) = Some "chess"
  ∧ invitationTargetUser (app Demo.drafting) = Some Demo.bob
  ∧ fetched (step Demo.host SendInvitation Demo.drafting)
    = [(POST "/activities/invite"
          (UrlEncoded
             "from_user_id=u-alice&to_user_id=u-bob&activity_name=chess&message="),
        K_sendActivityInvitation)].
Proof. vm_compute. repeat split; reflexivity. Qed.

(** A frame that is the text [null] parses, and reading its [type] throws. *)
Example demo_null_frame w :
  handleWebSocketMessage Demo.host JsonNull w = Raise (TypeError "type") w.
Proof. reflexivity. Qed.

(** Opening a chat afterwards resets the private surface to its placeholder:
    what was appended before is gone. *)
Example demo_private_then_open :
  children_of
    (dom (run Demo.host [SocketMessage 0 "frame:psst"; ContactClick "u-carol"]
            Demo.logged_in)) "private-messages"
  = [HistoryPlaceholder].
Proof. vm_compute. reflexivity. Qed.

Example demo_typing :
  fetched (step Demo.host (Send "chatwithme") Demo.typing)
  = [(POST "/messages/send"
        (UrlEncoded
           "sender_id=u-alice&content=tea%20%26%20cake%20%3D%205%3F&is_public=true"),
      K_sendPublicMessage "chatwithme")].
Proof. vm_compute. reflexivity. Qed.

Example demo_whispering :
  fetched (step Demo.host SendPrivate Demo.whispering)
  = [(POST "/messages/send"
        (UrlEncoded
           "sender_id=u-alice&content=see%20you%20at%208&recipient_id=u-bob&is_public=false"),
      K_sendPrivateMessage)].
Proof. vm_compute. reflexivity. Qed.

(** Once a body that is not an array has been taken for the contacts, the
    lookup of a clicked contact throws. *)
Example demo_contacts_not_an_array :
  ∃ w,
    loadContacts_settled (Response false (Some NotAnArray)) Demo.logged_in
    = Ok tt w
    ∧ handleContactClick false "u-bob" w = Raise (TypeError "find") w
    ∧ bubble_shown "u-bob" w = false.
Proof. eexists. split; [reflexivity |]. vm_compute. by split. Qed.


(** ** Reading the document after a write *)

Lemma children_of_appendChild id n w j :
  children_of (dom (world_of (appendChild id n w))) j
  = if decide (id = j) then children_of (dom w) id ++ [n]
    else children_of (dom w) j.
Proof.
  simpl. unfold children_of at 1. simpl. rewrite lookup_insert.
  by destruct (decide (id = j)).
Qed.

(** ** Routing of inbound messages *)

Section Routing.

Variable host : Host.

Lemma shown_as_side s1 s2 m u :
  shown_as host (set_sender_side s1 m) (set_side s2 u) = shown_as host m u.
Proof. reflexivity. Qed.

Lemma addMessageToChat_public m u w :
  currentUser (app w) = Some u →
  addMessageToChat host m "public" w
  = Ok tt (world_of
      ((appendChild "chatwithme-messages" (shown_as host m u) ;;
        appendChild "towhomilovethemost-messages" (shown_as host m u)) w)).
Proof.
  intros Hu. unfold addMessageToChat, bind at 1, this_currentUser.
  rewrite Hu. reflexivity.
Qed.

Lemma addMessageToChat_private m u w :
  currentUser (app w) = Some u →
  addMessageToChat host m "private" w
  = Ok tt (world_of (appendChild "private-messages" (shown_as host m u) w)).
Proof.
  intros Hu. unfold addMessageToChat, bind at 1, this_currentUser.
  rewrite Hu. reflexivity.
Qed.

(** C3. Every inbound public message is appended to both public room
    surfaces, [chatwithme-messages] and [towhomilovethemost-messages], and
    to no other, whoever sent it and whoever is logged in; the session
    fields do not change.  What is appended is the element of that
    message: its content, its sender's name and avatar, its time, and the
    mark of a sent message exactly when the sender's id is the current
    user's.  The element does not depend on the room the sender or the
    current user is assigned to. *)
Theorem public_message_reaches_both_rooms (m : Message) (u : User) (w : World) :
  is_public m = true →
  currentUser (app w) = Some u →
  ∃ w',
    handleWebSocketMessage host (NewMessage m) w = Ok tt w'
    ∧ children_of (dom w') "chatwithme-messages"
      = children_of (dom w) "chatwithme-messages" ++ [message_node host m u]
    ∧ children_of (dom w') "towhomilovethemost-messages"
      = children_of (dom w) "towhomilovethemost-messages"
        ++ [message_node host m u]
    ∧ (∀ id, id ≠ "chatwithme-messages" → id ≠ "towhomilovethemost-messages" →
             children_of (dom w') id = children_of (dom w) id)
    ∧ app w' = app w
    ∧ ∀ s1 s2,
        message_node host (set_sender_side s1 m) (set_side s2 u)
        = message_node host m u.
Proof.
  intros Hm Hu. eexists. split.
  - simpl. unfold handleNewMessage. rewrite Hm.
    erewrite addMessageToChat_public by eassumption. reflexivity.
  - change (shown_as host m u) with (message_node host m u).
    cbn [world_of bind appendChild modify].
    unfold children_of; simpl. repeat split.
    + rewrite lookup_insert_ne by done. rewrite lookup_insert_eq.
      unfold children_of. simpl. done.
    + rewrite lookup_insert_eq. unfold children_of. simpl.
      rewrite lookup_insert_ne by done. done.
    + intros id H1 H2. rewrite !lookup_insert_ne by done. done.
Qed.

End Routing.


Lemma public_message_reaches_both_rooms_witness :
  ∃ w',
    handleWebSocketMessage Demo.host (NewMessage Demo.hello_all) Demo.logged_in
    = Ok tt w'
    ∧ children_of (dom w') "chatwithme-messages"
      = children_of (dom Demo.logged_in) "chatwithme-messages"
        ++ [message_node Demo.host Demo.hello_all Demo.alice]
    ∧ children_of (dom w') "towhomilovethemost-messages"
      = children_of (dom Demo.logged_in) "towhomilovethemost-messages"
        ++ [message_node Demo.host Demo.hello_all Demo.alice]
    ∧ (∀ id, id ≠ "chatwithme-messages" → id ≠ "towhomilovethemost-messages" →
             children_of (dom w') id = children_of (dom Demo.logged_in) id)
    ∧ app w' = app Demo.logged_in
    ∧ ∀ s1 s2,
        message_node Demo.host (set_sender_side s1 Demo.hello_all)
          (set_side s2 Demo.alice)
        = message_node Demo.host Demo.hello_all Demo.alice.
Proof.
  apply (public_message_reaches_both_rooms Demo.host Demo.hello_all Demo.alice
           Demo.logged_in); vm_compute; reflexivity.
Defined.

Section PrivateMessages.

Variable host : Host.

(** C1, as the code has it. Every inbound private message is appended to
    the one private surface, [private-messages], whether a private chat is
    open or not and whoever its peer is; no other surface and no field of
    the session changes. *)
Theorem private_message_always_rendered (m : Message) (u : User) (w : World) :
  is_public m = false →
  currentUser (app w) = Some u →
  ∃ w',
    handleWebSocketMessage host (NewMessage m) w = Ok tt w'
    ∧ children_of (dom w') "private-messages"
      = children_of (dom w) "private-messages" ++ [shown_as host m u]
    ∧ (∀ id, id ≠ "private-messages" →
             children_of (dom w') id = children_of (dom w) id)
    ∧ app w' = app w.
Proof.
  intros Hm Hu. eexists. split.
  - simpl. unfold handleNewMessage. rewrite Hm.
    erewrite addMessageToChat_private by eassumption. reflexivity.
  - repeat split.
    + apply (children_of_appendChild "private-messages" _ w "private-messages").
    + intros id Hid.
      rewrite (children_of_appendChild "private-messages" _ w id).
      by destruct (decide ("private-messages" = id)).
Qed.

End PrivateMessages.

Lemma private_message_always_rendered_witness :
  ∃ w',
    handleWebSocketMessage Demo.host (NewMessage Demo.carol_to_alice)
      Demo.logged_in = Ok tt w'
    ∧ children_of (dom w') "private-messages"
      = children_of (dom Demo.logged_in) "private-messages"
        ++ [shown_as Demo.host Demo.carol_to_alice Demo.alice]
    ∧ (∀ id, id ≠ "private-messages" →
             children_of (dom w') id = children_of (dom Demo.logged_in) id)
    ∧ app w' = app Demo.logged_in.
Proof.
  apply (private_message_always_rendered Demo.host Demo.carol_to_alice
           Demo.alice Demo.logged_in); vm_compute; reflexivity.
Defined.

(** alice has the private chat with bob open; carol's private message to
    alice lands in that thread all the same. *)
Lemma private_isolation_fails :
  ¬ private_isolation Demo.host Demo.carol_to_alice Demo.chatting_with_bob.
Proof.
  intros [Hshown _].
  destruct Hshown as (p & Hp & Hwho).
  - eexists. vm_compute. repeat split; reflexivity.
  - vm_compute in Hp. inversion Hp; subst p.
    destruct Hwho as [H | H]; vm_compute in H; discriminate H.
Qed.


(** ** No method reads the console

    What a handler does, and how it ends, does not depend on what was
    logged before. *)

Lemma Silent_ret {A} (a : A) : Silent (ret a).
Proof. intros w. reflexivity. Qed.

Lemma Silent_throw {A} e : Silent (throw (A := A) e).
Proof. intros w. reflexivity. Qed.

Lemma Silent_bind {A B} (c : M A) (k : A → M B) :
  Silent c → (∀ a, Silent (k a)) → Silent (bind c k).
Proof.
  intros Hc Hk w. unfold bind. specialize (Hc w).
  destruct (c (hush w)) as [a1 w1 | e1 w1], (c w) as [a2 w2 | e2 w2];
    simpl in Hc; try discriminate; inversion Hc; subst.
  - rewrite <- (Hk a2 w1), <- (Hk a2 w2). congruence.
  - simpl. congruence.
Qed.

Lemma Silent_try_catch (c : M unit) (h : Exception → M unit) :
  Silent c → (∀ e, Silent (h e)) → Silent (try_catch c h).
Proof.
  intros Hc Hh w. unfold try_catch. specialize (Hc w).
  destruct (c (hush w)) as [a1 w1 | e1 w1], (c w) as [a2 w2 | e2 w2];
    simpl in Hc; try discriminate; inversion Hc; subst.
  - simpl. congruence.
  - rewrite <- (Hh e2 w1), <- (Hh e2 w2). congruence.
Qed.

Lemma Silent_modify (f : World → World) :
  (∀ w, hush (f (hush w)) = hush (f w)) → Silent (modify f).
Proof. intros Hf w. simpl. by rewrite Hf. Qed.

Lemma Silent_gets {A} (f : World → A) :
  (∀ w, f (hush w) = f w) → Silent (gets f).
Proof. intros Hf w. simpl. by rewrite Hf. Qed.

Lemma Silent_detached (c : M unit) : Silent c → Silent (detached c).
Proof.
  intros Hc w. unfold detached. specialize (Hc w).
  destruct (c (hush w)) as [a1 w1 | e1 w1], (c w) as [a2 w2 | e2 w2];
    simpl in *; try discriminate; inversion Hc as [Hw]; f_equal;
    unfold hush in *; simpl; congruence.
Qed.

Lemma Silent_forEach {A} (f : A → M unit) (l : list A) :
  (∀ x, Silent (f x)) → Silent (forEach f l).
Proof.
  intros Hf. induction l as [| x l IH]; simpl.
  - apply Silent_ret.
  - apply Silent_bind; auto.
Qed.

Lemma Silent_this_currentUser : Silent this_currentUser.
Proof. intros w. unfold this_currentUser. simpl. by destruct (currentUser (app w)). Qed.

Create HintDb silent.

#[local] Hint Resolve Silent_ret Silent_throw Silent_this_currentUser : silent.

(** Walks the body of a method: sequencing, branching, the primitives. *)
Ltac silent_step :=
  first
    [ apply Silent_bind; [| intros ?]
    | apply Silent_try_catch; [| intros ?]
    | apply Silent_detached
    | apply Silent_forEach; intros ?
    | apply Silent_modify; intros ?; reflexivity
    | apply Silent_gets; intros ?; reflexivity
    | solve [auto with silent]
    | match goal with
      | |- Silent (match ?x with _ => _ end) => destruct x
      | |- Silent (if ?b then _ else _) => destruct b
      | |- Silent (let (_, _) := ?x in _) => destruct x
      end ].

Ltac silent := repeat silent_step.

Section SilentMethods.

Variable host : Host.

Ltac primitive :=
  intros; cbv [classList_add classList_remove set_className set_textContent
               set_src set_value get_value set_innerHTML appendChild fetch
               alert console_log console_error setTimeout assign];
  silent.

Lemma Silent_classList_add id c : Silent (classList_add id c).
Proof. primitive. Qed.
Lemma Silent_classList_remove id c : Silent (classList_remove id c).
Proof. primitive. Qed.
Lemma Silent_set_className id cs : Silent (set_className id cs).
Proof. primitive. Qed.
Lemma Silent_set_textContent id s : Silent (set_textContent id s).
Proof. primitive. Qed.
Lemma Silent_set_src id s : Silent (set_src id s).
Proof. primitive. Qed.
Lemma Silent_set_value id s : Silent (set_value id s).
Proof. primitive. Qed.
Lemma Silent_get_value id : Silent (get_value id).
Proof. primitive. Qed.
Lemma Silent_set_innerHTML id ns : Silent (set_innerHTML id ns).
Proof. primitive. Qed.
Lemma Silent_appendChild id n : Silent (appendChild id n).
Proof. primitive. Qed.
Lemma Silent_fetch r k : Silent (fetch r k).
Proof. primitive. Qed.
Lemma Silent_alert s : Silent (alert s).
Proof. primitive. Qed.
Lemma Silent_console_log s : Silent (console_log s).
Proof. primitive. Qed.
Lemma Silent_console_error s e : Silent (console_error s e).
Proof. primitive. Qed.
Lemma Silent_setTimeout cb ms : Silent (setTimeout cb ms).
Proof. primitive. Qed.
Lemma Silent_assign f : Silent (assign f).
Proof. primitive. Qed.

Hint Resolve Silent_classList_add Silent_classList_remove
  Silent_set_className Silent_set_textContent Silent_set_src
  Silent_set_value Silent_get_value Silent_set_innerHTML
  Silent_appendChild Silent_fetch Silent_alert Silent_console_log
  Silent_console_error Silent_setTimeout Silent_assign : silent.

Lemma Silent_showLoginModal : Silent showLoginModal.
Proof. unfold showLoginModal. silent. Qed.

Lemma Silent_updateChatWindowVisibility : Silent updateChatWindowVisibility.
Proof. unfold updateChatWindowVisibility. silent. Qed.

Lemma Silent_connectWebSocket : Silent (connectWebSocket host).
Proof. unfold connectWebSocket. silent. Qed.

Lemma Silent_addMessageToChat m type : Silent (addMessageToChat host m type).
Proof. unfold addMessageToChat. silent. Qed.

Hint Resolve Silent_showLoginModal Silent_updateChatWindowVisibility
  Silent_connectWebSocket Silent_addMessageToChat : silent.

Lemma Silent_handleWebSocketMessage data :
  Silent (handleWebSocketMessage host data).
Proof.
  destruct data; simpl;
    unfold handleNewMessage, handleActivityInvitation,
      handleInvitationResponse, showNotification; silent.
Qed.

Lemma Silent_ws_onmessage data : Silent (ws_onmessage host data).
Proof.
  unfold ws_onmessage. destruct (JSON_parse_envelope host data).
  - apply Silent_handleWebSocketMessage.
  - apply Silent_throw.
Qed.

Lemma Silent_ws_onclose : Silent ws_onclose.
Proof. unfold ws_onclose. silent. Qed.

Lemma Silent_sendPublicMessage side : Silent (sendPublicMessage side).
Proof. unfold sendPublicMessage. silent. Qed.

Lemma Silent_sendPublicMessage_settled side o :
  Silent (sendPublicMessage_settled side o).
Proof. unfold sendPublicMessage_settled. silent. Qed.

Lemma Silent_sendPrivateMessage : Silent sendPrivateMessage.
Proof. unfold sendPrivateMessage. silent. Qed.

Lemma Silent_sendPrivateMessage_settled o :
  Silent (sendPrivateMessage_settled o).
Proof. unfold sendPrivateMessage_settled. silent. Qed.

Lemma Silent_renderContacts : Silent renderContacts.
Proof. unfold renderContacts. silent. Qed.

Lemma Silent_openPrivateChat u : Silent (openPrivateChat u).
Proof. unfold openPrivateChat, loadPrivateMessages. silent. Qed.

Lemma Silent_closePrivateChat : Silent closePrivateChat.
Proof. unfold closePrivateChat. silent. Qed.

Lemma Silent_openActivitySelectionModal u :
  Silent (openActivitySelectionModal u).
Proof. unfold openActivitySelectionModal. silent. Qed.

Lemma Silent_closeActivitySelectionModal : Silent closeActivitySelectionModal.
Proof. unfold closeActivitySelectionModal. silent. Qed.

Hint Resolve Silent_renderContacts Silent_openPrivateChat
  Silent_openActivitySelectionModal Silent_closeActivitySelectionModal
  : silent.

Lemma Silent_handleContactClick b userId :
  Silent (handleContactClick b userId).
Proof. unfold handleContactClick. silent. Qed.

Lemma Silent_handleAvatarClick userId : Silent (handleAvatarClick userId).
Proof. unfold handleAvatarClick. silent. Qed.

Lemma Silent_handleActivityClick act : Silent (handleActivityClick act).
Proof. unfold handleActivityClick. silent. Qed.

Lemma Silent_inviteBtnClick act : Silent (inviteBtnClick act).
Proof. unfold inviteBtnClick. silent. Qed.

Lemma Silent_sendActivityInvitation : Silent sendActivityInvitation.
Proof. unfold sendActivityInvitation. silent. Qed.

Lemma Silent_sendActivityInvitation_settled o :
  Silent (sendActivityInvitation_settled o).
Proof. unfold sendActivityInvitation_settled. silent. Qed.

Lemma Silent_respondToInvitation accept : Silent (respondToInvitation accept).
Proof. unfold respondToInvitation. silent. Qed.

Lemma Silent_respondToInvitation_settled o :
  Silent (respondToInvitation_settled o).
Proof. unfold respondToInvitation_settled. silent. Qed.

Lemma Silent_loadPublicMessages : Silent loadPublicMessages.
Proof. unfold loadPublicMessages. silent. Qed.

Hint Resolve Silent_loadPublicMessages : silent.

Lemma Silent_loadPublicMessages_settled o :
  Silent (loadPublicMessages_settled host o).
Proof. unfold loadPublicMessages_settled. silent. Qed.

Lemma Silent_loadContacts : Silent loadContacts.
Proof.
  intros w. unfold loadContacts, this_currentUser. simpl.
  destruct (currentUser (app w)); reflexivity.
Qed.

Lemma Silent_loadContacts_settled o : Silent (loadContacts_settled o).
Proof. unfold loadContacts_settled. silent. Qed.

Hint Resolve Silent_loadContacts : silent.

Lemma Silent_showMainInterface : Silent (showMainInterface host).
Proof. unfold showMainInterface. silent. Qed.

Hint Resolve Silent_showMainInterface : silent.

Lemma Silent_handleLogin : Silent handleLogin.
Proof. unfold handleLogin. silent. Qed.

Lemma Silent_handleLogin_settled o : Silent (handleLogin_settled host o).
Proof. unfold handleLogin_settled. silent. Qed.

Lemma Silent_constructor : Silent (constructor host).
Proof. unfold constructor, init, setupEventListeners. silent. Qed.

Lemma Silent_run_callback cb : Silent (run_callback host cb).
Proof. destruct cb; simpl; silent. Qed.

End SilentMethods.


Section SilentLoop.

Variable host : Host.

Lemma hush_report {A} (c : M A) w w0 :
  Silent c → hush w0 = hush w →
  hush (report (c w0)) = hush (report (c w)).
Proof.
  intros Hc Hw.
  assert (E : hush_result (c w0) = hush_result (c w)).
  { rewrite <- (Hc w0), <- (Hc w). by rewrite Hw. }
  destruct (c w0), (c w); simpl in E |- *; try discriminate;
    inversion E as [Hh]; unfold hush in *; simpl; congruence.
Qed.

Lemma on_ui_hush (c : M unit) w :
  Silent c → hush (on_ui c (hush w)) = hush (on_ui c w).
Proof.
  intros Hc. unfold on_ui. simpl. destruct (listening w); [| reflexivity].
  by apply hush_report.
Qed.

Lemma on_socket_hush n (c : M unit) w :
  Silent c → hush (on_socket n c (hush w)) = hush (on_socket n c w).
Proof.
  intros Hc. unfold on_socket. simpl. destruct (bool_decide _); [| reflexivity].
  by apply hush_report.
Qed.

Lemma settled_hush k (c : M unit) w :
  Silent c → hush (settled k c (hush w)) = hush (settled k c w).
Proof.
  intros Hc. unfold settled. simpl. destruct (take k (fetched w)); [| reflexivity].
  by apply hush_report.
Qed.

Lemma Silent_ws_onopen : Silent ws_onopen.
Proof. unfold ws_onopen, console_log. silent. Qed.

Lemma Silent_ws_onerror : Silent ws_onerror.
Proof. unfold ws_onerror. silent. Qed.

Lemma step_hush ev w : hush (step host ev (hush w)) = hush (step host ev w).
Proof.
  destruct ev; cbn [step];
    try (apply on_ui_hush);
    try (apply on_socket_hush);
    try (apply settled_hush);
    auto using Silent_handleLogin,
      Silent_sendPublicMessage, Silent_sendPrivateMessage,
      Silent_closePrivateChat, Silent_handleActivityClick,
      Silent_inviteBtnClick, Silent_sendActivityInvitation,
      Silent_closeActivitySelectionModal, Silent_respondToInvitation,
      Silent_ws_onmessage, Silent_ws_onclose, Silent_ws_onopen,
      Silent_ws_onerror,
      Silent_handleLogin_settled, Silent_loadContacts_settled,
      Silent_loadPublicMessages_settled, Silent_sendPublicMessage_settled,
      Silent_sendPrivateMessage_settled,
      Silent_sendActivityInvitation_settled,
      Silent_respondToInvitation_settled.
  - apply hush_report; [apply Silent_constructor | reflexivity].
  - change (bubble_shown userId (hush w)) with (bubble_shown userId w).
    destruct (bubble_shown userId w); [| reflexivity].
    apply on_ui_hush, Silent_handleContactClick.
  - change (bubble_shown userId (hush w)) with (bubble_shown userId w).
    destruct (bubble_shown userId w); [| reflexivity].
    apply on_ui_hush, Silent_handleAvatarClick.
  - change (timers (hush w)) with (timers w).
    destruct (timers w !! index) as [[ms cb] |]; [| reflexivity].
    apply hush_report; [apply Silent_run_callback | reflexivity].
Qed.

Lemma run_hush evs : ∀ w w0,
  hush w0 = hush w → hush (run host evs w0) = hush (run host evs w).
Proof.
  induction evs as [| ev evs IH]; intros w w0 Hw; simpl.
  - exact Hw.
  - apply IH. rewrite <- (step_hush ev w0), <- (step_hush ev w).
    by rewrite Hw.
Qed.

(** C2. A frame that [JSON.parse] rejects is dropped: [onmessage] stops at
    the parse with a [SyntaxError] before any handler is reached and with
    the world exactly as it was; nothing in the class catches the error,
    so the event loop reports it on the console and goes on.  Whatever
    events follow are handled as if the frame had never arrived: the
    session fields, the document, the storage, the pending requests and
    timers, the alerts and the sockets all end up the same. *)
Theorem malformed_frame_is_dropped (data : string) (w : World) (n : nat)
    (evs : list Event) :
  JSON_parse_envelope host data = None →
  ws_onmessage host data w = Raise SyntaxError w
  ∧ hush (step host (SocketMessage n data) w) = hush w
  ∧ console (step host (SocketMessage n data) w)
    = (if bool_decide (n < length (sockets w))%nat
       then console w ++ [Uncaught SyntaxError] else console w)
  ∧ hush (run host (SocketMessage n data :: evs) w) = hush (run host evs w).
Proof.
  intros Hbad.
  assert (H1 : ws_onmessage host data w = Raise SyntaxError w).
  { unfold ws_onmessage. by rewrite Hbad. }
  assert (H2 : hush (step host (SocketMessage n data) w) = hush w).
  { simpl. unfold on_socket. rewrite H1.
    by destruct (bool_decide _). }
  repeat split; try assumption.
  - simpl. unfold on_socket. rewrite H1. by destruct (bool_decide _).
  - simpl. by apply run_hush.
Qed.

End SilentLoop.

Lemma malformed_frame_is_dropped_witness :
  ws_onmessage Demo.host "{oops" Demo.logged_in
  = Raise SyntaxError Demo.logged_in
  ∧ hush (step Demo.host (SocketMessage 0 "{oops") Demo.logged_in)
    = hush Demo.logged_in
  ∧ console (step Demo.host (SocketMessage 0 "{oops") Demo.logged_in)
    = (if bool_decide (0 < length (sockets Demo.logged_in))%nat
       then console Demo.logged_in ++ [Uncaught SyntaxError]
       else console Demo.logged_in)
  ∧ hush (run Demo.host
            [SocketMessage 0 "{oops"; SocketMessage 0 "frame:chess"]
            Demo.logged_in)
    = hush (run Demo.host [SocketMessage 0 "frame:chess"] Demo.logged_in).
Proof.
  apply (malformed_frame_is_dropped Demo.host "{oops" Demo.logged_in 0
           [SocketMessage 0 "frame:chess"]).
  vm_compute. reflexivity.
Defined.


(** ** What touches the pending invitation

    Only an invitation frame sets it and only a successful answer clears
    it; a reload starts from a new object. *)

Lemma KeepsPending_ret {A} (a : A) : KeepsPending (ret a).
Proof. intros w. reflexivity. Qed.

Lemma KeepsPending_throw {A} e : KeepsPending (throw (A := A) e).
Proof. intros w. reflexivity. Qed.

Lemma KeepsPending_bind {A B} (c : M A) (k : A → M B) :
  KeepsPending c → (∀ a, KeepsPending (k a)) → KeepsPending (bind c k).
Proof.
  intros Hc Hk w. unfold bind. specialize (Hc w).
  destruct (c w) as [a w1 | e w1]; simpl in *.
  - by rewrite Hk.
  - exact Hc.
Qed.

Lemma KeepsPending_try_catch (c : M unit) (h : Exception → M unit) :
  KeepsPending c → (∀ e, KeepsPending (h e)) → KeepsPending (try_catch c h).
Proof.
  intros Hc Hh w. unfold try_catch. specialize (Hc w).
  destruct (c w) as [a w1 | e w1]; simpl in *.
  - exact Hc.
  - by rewrite Hh.
Qed.

Lemma KeepsPending_modify (f : World → World) :
  (∀ w, pending (f w) = pending w) → KeepsPending (modify f).
Proof. intros Hf w. apply Hf. Qed.

Lemma KeepsPending_gets {A} (f : World → A) : KeepsPending (gets f).
Proof. intros w. reflexivity. Qed.

Lemma pending_report {A} (r : Result A) : pending (report r) = pending (world_of r).
Proof. by destruct r. Qed.

Lemma KeepsPending_detached (c : M unit) : KeepsPending c → KeepsPending (detached c).
Proof. intros Hc w. unfold detached. simpl. by rewrite pending_report. Qed.

Lemma KeepsPending_forEach {A} (f : A → M unit) (l : list A) :
  (∀ x, KeepsPending (f x)) → KeepsPending (forEach f l).
Proof.
  intros Hf. induction l as [| x l IH]; simpl.
  - apply KeepsPending_ret.
  - apply KeepsPending_bind; auto.
Qed.

Lemma KeepsPending_this_currentUser : KeepsPending this_currentUser.
Proof. intros w. unfold this_currentUser. by destruct (currentUser (app w)). Qed.

Create HintDb pending.

#[local] Hint Resolve KeepsPending_ret KeepsPending_throw
  KeepsPending_this_currentUser : pending.

Ltac pending_step :=
  first
    [ apply KeepsPending_bind; [| intros ?]
    | apply KeepsPending_try_catch; [| intros ?]
    | apply KeepsPending_detached
    | apply KeepsPending_forEach; intros ?
    | apply KeepsPending_modify; intros ?; reflexivity
    | apply KeepsPending_gets
    | solve [auto with pending]
    | match goal with
      | |- KeepsPending (match ?x with _ => _ end) => destruct x
      | |- KeepsPending (if ?b then _ else _) => destruct b
      | |- KeepsPending (let (_, _) := ?x in _) => destruct x
      end ].

Ltac keeps_pending :=
  cbv [classList_add classList_remove set_className set_textContent
       set_src set_value get_value set_innerHTML appendChild fetch
       alert console_log console_error setTimeout assign];
  repeat pending_step.

Section PendingInvitation.

Variable host : Host.

Lemma KeepsPending_connectWebSocket : KeepsPending (connectWebSocket host).
Proof. unfold connectWebSocket. keeps_pending. Qed.

Lemma KeepsPending_addMessageToChat m type :
  KeepsPending (addMessageToChat host m type).
Proof. unfold addMessageToChat. keeps_pending. Qed.

Lemma KeepsPending_updateChatWindowVisibility :
  KeepsPending updateChatWindowVisibility.
Proof. unfold updateChatWindowVisibility. keeps_pending. Qed.

Lemma KeepsPending_loadPublicMessages : KeepsPending loadPublicMessages.
Proof. unfold loadPublicMessages. keeps_pending. Qed.

Hint Resolve KeepsPending_connectWebSocket KeepsPending_addMessageToChat
  KeepsPending_updateChatWindowVisibility KeepsPending_loadPublicMessages
  : pending.

Lemma KeepsPending_loadContacts : KeepsPending loadContacts.
Proof.
  intros w. unfold loadContacts, this_currentUser.
  destruct (currentUser (app w)); reflexivity.
Qed.

Hint Resolve KeepsPending_loadContacts : pending.

Lemma KeepsPending_showMainInterface : KeepsPending (showMainInterface host).
Proof. unfold showMainInterface. keeps_pending. Qed.

Hint Resolve KeepsPending_showMainInterface : pending.

Lemma KeepsPending_ws_onmessage data :
  beside_invitations host (SocketMessage 0 data) →
  KeepsPending (ws_onmessage host data).
Proof.
  intros Hd. unfold ws_onmessage. simpl in Hd.
  destruct (JSON_parse_envelope host data) as [[m | i | r | t |] |] eqn:E;
    simpl; try (exfalso; by apply (Hd i));
    unfold handleNewMessage, handleInvitationResponse, showNotification;
    keeps_pending.
Qed.

(** No event beside those three changes the pending invitation. *)
Lemma step_keeps_pending ev w :
  beside_invitations host ev → pending (step host ev w) = pending w.
Proof.
  intros Hev.
  destruct ev; try contradiction; cbn [step];
    unfold on_ui, on_socket, settled;
    repeat match goal with
           | |- context [if ?b then _ else _] => destruct b
           | |- context [match take ?k ?l with _ => _ end] =>
               destruct (take k l)
           | |- context [match ?l !! ?i with _ => _ end] =>
               destruct (l !! i) as [[? ?] |]
           end;
    try reflexivity;
    rewrite pending_report;
    match goal with
    | |- pending (world_of (?c ?w0)) = _ =>
        transitivity (pending w0); [| reflexivity];
        generalize w0;
        change (KeepsPending c)
    end.
  all: try (by apply KeepsPending_ws_onmessage).
  all: try match goal with
           | |- KeepsPending (run_callback _ ?cb) =>
               destruct cb; cbn [run_callback]
           end.
  all: unfold handleLogin, sendPublicMessage, sendPrivateMessage,
         closePrivateChat, handleContactClick, handleAvatarClick,
         openPrivateChat, loadPrivateMessages, openActivitySelectionModal,
         handleActivityClick, inviteBtnClick, sendActivityInvitation,
         closeActivitySelectionModal, respondToInvitation, ws_onopen,
         ws_onclose, ws_onerror, handleLogin_settled, loadContacts_settled,
         renderContacts, loadPublicMessages_settled,
         sendPublicMessage_settled, sendPrivateMessage_settled,
         sendActivityInvitation_settled, closeActivitySelectionModal;
       keeps_pending.
Qed.

Lemma run_keeps_pending evs : ∀ w,
  Forall (beside_invitations host) evs →
  pending (run host evs w) = pending w.
Proof.
  induction evs as [| ev evs IH]; intros w Hevs; [reflexivity |].
  inversion Hevs as [| ? ? Hev Hrest]; subst. simpl.
  rewrite IH by assumption. by apply step_keeps_pending.
Qed.

End PendingInvitation.


(** ** The document and the session after the primitives *)

Lemma hidden_after_add id w :
  hidden (dom (world_of (classList_add id "hidden" w))) id = true.
Proof.
  unfold hidden, classList. simpl. rewrite lookup_insert_eq. simpl.
  apply bool_decide_eq_true. set_solver.
Qed.

Lemma hidden_after_remove id w :
  hidden (dom (world_of (classList_remove id "hidden" w))) id = false.
Proof.
  unfold hidden, classList. simpl. rewrite lookup_insert_eq. simpl.
  apply bool_decide_eq_false.
  rewrite elem_of_difference, elem_of_singleton. tauto.
Qed.

Lemma hidden_elsewhere_add id c j w :
  id ≠ j → hidden (dom (world_of (classList_add id c w))) j = hidden (dom w) j.
Proof.
  intros Hne. unfold hidden, classList. simpl. by rewrite lookup_insert_ne.
Qed.

Lemma hidden_elsewhere_remove id c j w :
  id ≠ j → hidden (dom (world_of (classList_remove id c w))) j = hidden (dom w) j.
Proof.
  intros Hne. unfold hidden, classList. simpl. by rewrite lookup_insert_ne.
Qed.

(** The request just issued is found when its answer arrives. *)
Lemma take_last k r l :
  take k (l ++ [(r, k)])
  = Some (match take k l with
          | Some l' => l' ++ [(r, k)]
          | None => l
          end).
Proof.
  induction l as [| p l IH]; simpl.
  - by rewrite bool_decide_eq_true_2.
  - destruct (bool_decide (p.2 = k)); [reflexivity |].
    rewrite IH. simpl. by destruct (take k l).
Qed.

(** ** Invitations received *)

Section InvitationReceived.

Variable host : Host.

Lemma handleActivityInvitation_overwrites i1 i2 w :
  world_of (handleActivityInvitation i2
              (world_of (handleActivityInvitation i1 w)))
  = world_of (handleActivityInvitation i2 w).
Proof.
  unfold handleActivityInvitation. cbn.
  unfold set_dom, set_app, with_children, with_classes, classList. cbn.
  rewrite lookup_insert_eq, !insert_insert_eq. cbn.
  do 3 f_equal. apply set_eq. intros x. rewrite !elem_of_difference. tauto.
Qed.

(** C4. Of two invitations that arrive one after the other the second is
    the only one kept: the pending invitation is the second, the decision
    dialog shows the second, and the whole world is what it would be had
    the first never arrived.  It stays the pending invitation through
    every later event that is not an answer settling, another invitation
    or a reload.  The session holds its pending invitation in one field,
    so there is never more than one. *)
Theorem last_invitation_wins (w : World) (n1 n2 : nat) (d1 d2 : string)
    (i1 i2 : Invitation) :
  JSON_parse_envelope host d1 = Some (ActivityInvitation i1) →
  JSON_parse_envelope host d2 = Some (ActivityInvitation i2) →
  (n1 < length (sockets w))%nat →
  (n2 < length (sockets w))%nat →
  let w1 := step host (SocketMessage n1 d1) w in
  let w2 := step host (SocketMessage n2 d2) w1 in
  currentInvitation (app w1) = Some i1
  ∧ currentInvitation (app w2) = Some i2
  ∧ children_of (dom w2) "invitation-content" = [details i2]
  ∧ hidden (dom w2) "invitation-modal" = false
  ∧ w2 = step host (SocketMessage n2 d2) w
  ∧ ∀ evs, Forall (beside_invitations host) evs →
           currentInvitation (app (run host evs w2)) = Some i2.
Proof.
  intros Hd1 Hd2 Hn1 Hn2 w1 w2.
  assert (E1 : w1 = world_of (handleActivityInvitation i1 w)).
  { unfold w1. simpl. unfold on_socket, ws_onmessage.
    rewrite bool_decide_eq_true_2 by assumption. by rewrite Hd1. }
  assert (E0 : step host (SocketMessage n2 d2) w
               = world_of (handleActivityInvitation i2 w)).
  { simpl. unfold on_socket, ws_onmessage.
    rewrite bool_decide_eq_true_2 by assumption. by rewrite Hd2. }
  assert (E2 : w2 = world_of (handleActivityInvitation i2 w)).
  { unfold w2. simpl. unfold on_socket, ws_onmessage.
    rewrite bool_decide_eq_true_2 by (rewrite E1; exact Hn2).
    rewrite Hd2. simpl. rewrite E1.
    apply handleActivityInvitation_overwrites. }
  rewrite E0, E2, E1. repeat split.
  - unfold children_of. simpl. by rewrite lookup_insert_eq.
  - apply (hidden_after_remove "invitation-modal").
  - intros evs Hevs.
    change (pending (run host evs (world_of (handleActivityInvitation i2 w)))
            = Some i2).
    by rewrite run_keeps_pending by assumption.
Qed.

End InvitationReceived.

Lemma last_invitation_wins_witness :
  let w1 := step Demo.host (SocketMessage 0 "frame:chess") Demo.logged_in in
  let w2 := step Demo.host (SocketMessage 0 "frame:hiking") w1 in
  currentInvitation (app w1) = Some Demo.chess
  ∧ currentInvitation (app w2) = Some Demo.hiking
  ∧ children_of (dom w2) "invitation-content" = [details Demo.hiking]
  ∧ hidden (dom w2) "invitation-modal" = false
  ∧ w2 = step Demo.host (SocketMessage 0 "frame:hiking") Demo.logged_in
  ∧ ∀ evs, Forall (beside_invitations Demo.host) evs →
           currentInvitation (app (run Demo.host evs w2)) = Some Demo.hiking.
Proof.
  apply (last_invitation_wins Demo.host Demo.logged_in 0 0
           "frame:chess" "frame:hiking" Demo.chess Demo.hiking);
    vm_compute; first [reflexivity | lia].
Defined.


(** ** Answering an invitation *)

Section Respond.

Variable host : Host.

Lemma respondToInvitation_call accept i u w :
  currentInvitation (app w) = Some i →
  currentUser (app w) = Some u →
  respondToInvitation accept w
  = Ok tt (add_fetched (respond_request i u accept) K_respondToInvitation w).
Proof.
  intros Hi Hu.
  unfold respondToInvitation, bind, gets, try_catch, this_currentUser.
  rewrite Hi, Hu. reflexivity.
Qed.

Lemma respondToInvitation_refused b w :
  respondToInvitation_settled (Response false b) w = Ok tt w.
Proof. reflexivity. Qed.

Lemma respondToInvitation_rejected w :
  respondToInvitation_settled Rejected w
  = Ok tt (add_console (Error "Error responding to invitation:" FetchFailed) w).
Proof. reflexivity. Qed.

(** C5. With an invitation pending, answering it issues one request, keyed
    by the invitation and the user, and changes nothing else.  When the
    request succeeds, in whatever world the answer arrives, the pending
    invitation becomes none and the decision dialog is hidden.  When the
    request is rejected by the network, the error goes to the console and
    nothing else changes: the invitation is still pending and the dialog
    is as it was. *)
Theorem respond_clears_on_success_only (accept : bool) (i : Invitation)
    (u : User) (w : World) :
  currentInvitation (app w) = Some i →
  currentUser (app w) = Some u →
  respondToInvitation accept w
  = Ok tt (add_fetched (respond_request i u accept) K_respondToInvitation w)
  ∧ (∀ w1 b, ∃ w2,
       respondToInvitation_settled (Response true b) w1 = Ok tt w2
       ∧ currentInvitation (app w2) = None
       ∧ hidden (dom w2) "invitation-modal" = true)
  ∧ (∀ w1,
       respondToInvitation_settled Rejected w1
       = Ok tt (add_console
                  (Error "Error responding to invitation:" FetchFailed) w1))
  ∧ (let w1 := step host (if accept then Accept else Decline) w in
     let w2 := step host (RespondSettled Rejected) w1 in
     listening w = true →
     currentInvitation (app w2) = Some i ∧ dom w2 = dom w).
Proof.
  intros Hi Hu. split; [by apply respondToInvitation_call |].
  split; [| split].
  - intros w1 b. eexists. split; [reflexivity |]. split; [reflexivity |].
    apply (hidden_after_add "invitation-modal").
  - intros w1. reflexivity.
  - intros w1 w2 Hl. unfold w2, w1.
    assert (E : step host (if accept then Accept else Decline) w
                = add_fetched (respond_request i u accept)
                    K_respondToInvitation w).
    { destruct accept; simpl; unfold on_ui; rewrite Hl;
        by erewrite respondToInvitation_call by eassumption. }
    rewrite E. simpl. unfold settled. simpl. rewrite take_last. simpl.
    by split.
Qed.

(** C10. With an invitation pending, an answer that reaches the server and
    comes back with a status outside 2xx changes nothing: the invitation is
    still pending, the dialog stays as it was, no alert is raised and
    nothing is logged.  The state is the one a network failure leaves,
    where the only difference is the error on the console. *)
Theorem respond_refused_keeps_invitation (accept : bool) (i : Invitation)
    (u : User) (b : option unit) (w : World) :
  currentInvitation (app w) = Some i →
  currentUser (app w) = Some u →
  listening w = true →
  let w1 := step host (if accept then Accept else Decline) w in
  let w2 := step host (RespondSettled (Response false b)) w1 in
  currentInvitation (app w2) = Some i
  ∧ app w2 = app w
  ∧ dom w2 = dom w
  ∧ alerts w2 = alerts w
  ∧ console w2 = console w
  ∧ step host (RespondSettled Rejected) w1
    = add_console (Error "Error responding to invitation:" FetchFailed) w2.
Proof.
  intros Hi Hu Hl w1 w2. unfold w2, w1.
  assert (E : step host (if accept then Accept else Decline) w
              = add_fetched (respond_request i u accept)
                  K_respondToInvitation w).
  { destruct accept; simpl; unfold on_ui; rewrite Hl;
      by erewrite respondToInvitation_call by eassumption. }
  rewrite E. simpl. unfold settled. simpl. rewrite take_last. simpl.
  by repeat split.
Qed.

End Respond.

Lemma respond_clears_on_success_only_witness :
  respondToInvitation true Demo.invited
  = Ok tt (add_fetched (respond_request Demo.chess Demo.alice true)
             K_respondToInvitation Demo.invited)
  ∧ (∀ w1 b, ∃ w2,
       respondToInvitation_settled (Response true b) w1 = Ok tt w2
       ∧ currentInvitation (app w2) = None
       ∧ hidden (dom w2) "invitation-modal" = true)
  ∧ (∀ w1,
       respondToInvitation_settled Rejected w1
       = Ok tt (add_console
                  (Error "Error responding to invitation:" FetchFailed) w1))
  ∧ (let w1 := step Demo.host Accept Demo.invited in
     let w2 := step Demo.host (RespondSettled Rejected) w1 in
     listening Demo.invited = true →
     currentInvitation (app w2) = Some Demo.chess ∧ dom w2 = dom Demo.invited).
Proof.
  apply (respond_clears_on_success_only Demo.host true Demo.chess Demo.alice
           Demo.invited); vm_compute; reflexivity.
Defined.

Lemma respond_refused_keeps_invitation_witness :
  let w1 := step Demo.host Decline Demo.invited in
  let w2 := step Demo.host (RespondSettled (Response false None)) w1 in
  currentInvitation (app w2) = Some Demo.chess
  ∧ app w2 = app Demo.invited
  ∧ dom w2 = dom Demo.invited
  ∧ alerts w2 = alerts Demo.invited
  ∧ console w2 = console Demo.invited
  ∧ step Demo.host (RespondSettled Rejected) w1
    = add_console (Error "Error responding to invitation:" FetchFailed) w2.
Proof.
  apply (respond_refused_keeps_invitation Demo.host false Demo.chess
           Demo.alice None Demo.invited); vm_compute; reflexivity.
Defined.


(** ** Proposing an activity *)


Section Propose.

Variable host : Host.




End Propose.



(** ** Actions whose precondition does not hold *)

Section Unmet.

Variable host : Host.

Lemma sendPublicMessage_empty chatSide w :
  Js.trim (value_of (dom w) (chatSide +:+ "-input")) = "" →
  sendPublicMessage chatSide w = Ok tt w.
Proof.
  intros He. unfold sendPublicMessage, bind, get_value, gets.
  by rewrite He.
Qed.

Lemma sendPrivateMessage_unmet w :
  Js.trim (value_of (dom w) "private-message-input") = ""
  ∨ currentPrivateChatUser (app w) = None →
  sendPrivateMessage w = Ok tt w.
Proof.
  intros H. unfold sendPrivateMessage, bind, get_value, gets.
  destruct (currentPrivateChatUser (app w)) as [p |]; [| reflexivity].
  destruct H as [He | ?]; [by rewrite He | done].
Qed.

Lemma handleLogin_empty w :
  Js.trim (value_of (dom w) "username") = "" → handleLogin w = Ok tt w.
Proof.
  intros He. unfold handleLogin, bind, get_value, gets. by rewrite He.
Qed.

Lemma draft_unmet a :
  selectedActivity a = None ∨ selectedActivity a = Some ""
  ∨ invitationTargetUser a = None →
  draft a = None.
Proof.
  unfold draft. intros [H | [H | H]]; rewrite H; try reflexivity.
  - by destruct (invitationTargetUser a).
  - by destruct (selectedActivity a).
Qed.

Lemma sendActivityInvitation_unmet w :
  draft (app w) = None →
  sendActivityInvitation w = Ok tt (add_alert "Please select an activity" w).
Proof.
  intros Hd. unfold sendActivityInvitation, bind, gets. by rewrite Hd.
Qed.

Lemma respondToInvitation_unmet accept w :
  currentInvitation (app w) = None → respondToInvitation accept w = Ok tt w.
Proof.
  intros Hi. unfold respondToInvitation, bind, gets. by rewrite Hi.
Qed.

(** C7. A user action whose precondition does not hold -- sending or
    logging in with nothing but white space typed, sending privately with
    no chat open, proposing without an activity or a target, answering
    with no invitation pending -- issues no request and leaves the session,
    the document, the storage, the timers, the sockets and the console as
    they are.  The world is unchanged altogether, except that proposing
    raises the alert that asks for an activity. *)
Theorem unmet_action_changes_nothing (ev : Event) (w : World) :
  unmet ev w →
  let w' := step host ev w in
  fetched w' = fetched w
  ∧ app w' = app w
  ∧ dom w' = dom w
  ∧ localStorage w' = localStorage w
  ∧ timers w' = timers w
  ∧ sockets w' = sockets w
  ∧ console w' = console w
  ∧ (w' = w
     ∨ ev = SendInvitation
       ∧ w' = add_alert "Please select an activity" w).
Proof.
  intros Hu w'.
  assert (H : w' = w ∨ ev = SendInvitation
                       ∧ w' = add_alert "Please select an activity" w).
  { unfold w'. destruct ev; simpl in Hu; try contradiction; simpl;
      unfold on_ui; destruct (listening w); auto.
    - left. by rewrite handleLogin_empty.
    - left. by rewrite sendPublicMessage_empty.
    - left. by rewrite sendPrivateMessage_unmet.
    - right. split; [reflexivity |].
      by rewrite sendActivityInvitation_unmet by by apply draft_unmet.
    - left. by rewrite respondToInvitation_unmet.
    - left. by rewrite respondToInvitation_unmet. }
  repeat split; try exact H; destruct H as [-> | [_ ->]]; reflexivity.
Qed.

End Unmet.

Lemma unmet_action_changes_nothing_witness :
  let w' := step Demo.host SendInvitation Demo.logged_in in
  fetched w' = fetched Demo.logged_in
  ∧ app w' = app Demo.logged_in
  ∧ dom w' = dom Demo.logged_in
  ∧ localStorage w' = localStorage Demo.logged_in
  ∧ timers w' = timers Demo.logged_in
  ∧ sockets w' = sockets Demo.logged_in
  ∧ console w' = console Demo.logged_in
  ∧ (w' = Demo.logged_in
     ∨ SendInvitation = SendInvitation
       ∧ w' = add_alert "Please select an activity" Demo.logged_in).
Proof.
  apply (unmet_action_changes_nothing Demo.host SendInvitation Demo.logged_in).
  left. vm_compute. reflexivity.
Defined.


(** ** Start-up and login *)

Section Startup.

Variable host : Host.

Lemma connectWebSocket_ok u w :
  currentUser (app w) = Some u →
  connectWebSocket host w
  = Ok tt (let ws := {| ws_serial := length (sockets w);
                        ws_url := wsUrl host u |} in
           set_app (with_websocket (Some ws)) (add_socket ws w)).
Proof.
  intros Hu. unfold connectWebSocket, bind, this_currentUser.
  rewrite Hu. reflexivity.
Qed.

Lemma loadContacts_ok u w :
  currentUser (app w) = Some u →
  loadContacts w
  = Ok tt (add_fetched (GET ("/users/" +:+ user_id u +:+ "/contacts"))
             K_loadContacts w).
Proof.
  intros Hu. unfold loadContacts, this_currentUser. rewrite Hu. reflexivity.
Qed.

(** What [showMainInterface] establishes for a session that has a user. *)
Lemma showMainInterface_ok u w :
  currentUser (app w) = Some u →
  ∃ w',
    showMainInterface host w = Ok tt w'
    ∧ app w' = with_websocket
                 (Some {| ws_serial := length (sockets w);
                          ws_url := wsUrl host u |}) (app w)
    ∧ hidden (dom w') "login-modal" = true
    ∧ hidden (dom w') "main-interface" = false
    ∧ text (dom w') !! "current-user-name" = Some (username u)
    ∧ localStorage w' = localStorage w
    ∧ listening w' = listening w
    ∧ alerts w' = alerts w
    ∧ console w' = console w.
Proof.
  intros Hu. unfold showMainInterface.
  unfold bind at 1. cbn [classList_add modify].
  unfold bind at 1. cbn [classList_remove modify].
  unfold bind at 1. unfold this_currentUser at 1. cbn [app set_dom].
  rewrite Hu.
  unfold bind at 1. cbn [set_src modify].
  unfold bind at 1. cbn [set_textContent modify].
  unfold bind at 1. cbn [set_textContent modify].
  unfold bind at 1. cbn [set_className modify].
  unfold bind at 1. erewrite connectWebSocket_ok by exact Hu.
  erewrite loadContacts_ok by exact Hu.
  eexists. split; [reflexivity |]. cbn.
  repeat split.
  - unfold hidden, classList. cbn.
    rewrite lookup_insert_ne by done.
    rewrite lookup_insert_ne by done.
    rewrite lookup_insert_eq. cbn.
    apply bool_decide_eq_true. rewrite elem_of_union, elem_of_singleton.
    by right.
  - unfold hidden, classList. cbn.
    rewrite lookup_insert_ne by done.
    rewrite lookup_insert_eq. cbn.
    apply bool_decide_eq_false.
    rewrite elem_of_difference, elem_of_singleton. tauto.
  - rewrite lookup_insert_ne by done. by rewrite lookup_insert_eq.
Qed.

Lemma constructor_restores s u w :
  localStorage w !! storage_key = Some s →
  Js.truthy s = true →
  JSON_parse_user host s = Some u →
  let w' := step host DOMContentLoaded w in
  currentUser (app w') = Some u
  ∧ websocket (app w')
    = Some {| ws_serial := length (sockets w); ws_url := wsUrl host u |}
  ∧ hidden (dom w') "login-modal" = true
  ∧ hidden (dom w') "main-interface" = false
  ∧ text (dom w') !! "current-user-name" = Some (username u)
  ∧ listening w' = true
  ∧ alerts w' = alerts w
  ∧ console w' = console w.
Proof.
  intros Hs Ht Hp w'.
  destruct (showMainInterface_ok u
              (set_app (with_currentUser (Some u))
                 (set_app (fun _ => new_App) w)) eq_refl)
    as (w1 & E & Happ & Hl & Hm & Hn & _ & _ & Ha & Hc).
  assert (Ew : w' = set_listening true w1).
  { unfold w'. cbn [step].
    unfold constructor, bind at 1. cbn [assign modify].
    unfold detached, init. unfold bind at 1. cbn [gets localStorage set_app].
    rewrite Hs, Ht, Hp.
    unfold bind at 1. unfold bind at 1. cbn [assign modify].
    unfold detached. rewrite E. reflexivity. }
  rewrite Ew. cbn [set_listening app dom listening alerts console].
  rewrite Happ, Hl, Hm, Hn, Ha, Hc. by repeat split.
Qed.

Lemma constructor_asks_to_log_in w :
  localStorage w !! storage_key = None →
  let w' := step host DOMContentLoaded w in
  currentUser (app w') = None
  ∧ hidden (dom w') "login-modal" = false
  ∧ hidden (dom w') "main-interface" = true
  ∧ listening w' = true
  ∧ fetched w' = fetched w
  ∧ sockets w' = sockets w.
Proof.
  intros Hs w'.
  assert (Ew : w' = set_listening true
                      (world_of (showLoginModal
                                   (set_app (fun _ => new_App) w)))).
  { unfold w'. cbn [step].
    unfold constructor, bind at 1. cbn [assign modify].
    unfold detached, init. unfold bind at 1. cbn [gets localStorage set_app].
    rewrite Hs. reflexivity. }
  rewrite Ew. unfold showLoginModal. cbn. repeat split.
  - unfold hidden, classList. cbn.
    rewrite lookup_insert_ne by done. rewrite lookup_insert_eq. cbn.
    apply bool_decide_eq_false.
    rewrite elem_of_difference, elem_of_singleton. tauto.
  - unfold hidden, classList. cbn. rewrite lookup_insert_eq. cbn.
    apply bool_decide_eq_true. rewrite elem_of_union, elem_of_singleton.
    by right.
Qed.

Lemma handleLogin_settled_stores r u w :
  result_user r = Some u →
  ∃ w',
    handleLogin_settled host (Response true (Some r)) w = Ok tt w'
    ∧ localStorage w' !! storage_key = Some (JSON_stringify_user host u)
    ∧ currentUser (app w') = Some u
    ∧ hidden (dom w') "login-modal" = true
    ∧ hidden (dom w') "main-interface" = false.
Proof.
  intros Hr. unfold handleLogin_settled, try_catch.
  unfold bind at 1. cbn [assign modify]. unfold bind at 1. cbn [modify].
  rewrite Hr. unfold detached.
  destruct (showMainInterface_ok u
              (set_localStorage
                 <[storage_key := JSON_stringify_user host u]>
                 (set_app (with_currentUser (Some u)) w)) eq_refl)
    as (w1 & E & Happ & Hl & Hm & _ & Hst & _).
  rewrite E. eexists. split; [reflexivity |]. cbn [report].
  rewrite Hst, Happ, Hl, Hm. cbn. rewrite lookup_insert_eq. by repeat split.
Qed.

(** C8. At start-up the stored record decides what is shown.  When the
    storage holds, under the key [chatwithme_user], a record that reads
    back as a user, that user becomes the current user and the main
    interface is shown in place of the login dialog.  When the key is
    absent the login dialog is shown in place of the main interface and
    there is no current user.  A successful login stores the serialized
    user under that same key; a page that starts with what the login
    stored restores that user. *)
Theorem startup_follows_storage :
  (∀ w s u,
     localStorage w !! storage_key = Some s →
     Js.truthy s = true →
     JSON_parse_user host s = Some u →
     let w' := step host DOMContentLoaded w in
     currentUser (app w') = Some u
     ∧ hidden (dom w') "login-modal" = true
     ∧ hidden (dom w') "main-interface" = false
     ∧ text (dom w') !! "current-user-name" = Some (username u))
  ∧ (∀ w,
     localStorage w !! storage_key = None →
     let w' := step host DOMContentLoaded w in
     currentUser (app w') = None
     ∧ hidden (dom w') "login-modal" = false
     ∧ hidden (dom w') "main-interface" = true)
  ∧ (∀ w r u,
     result_user r = Some u →
     ∃ w1,
       handleLogin_settled host (Response true (Some r)) w = Ok tt w1
       ∧ localStorage w1 !! storage_key = Some (JSON_stringify_user host u)
       ∧ currentUser (app w1) = Some u
       ∧ (JSON_parse_user host (JSON_stringify_user host u) = Some u →
          Js.truthy (JSON_stringify_user host u) = true →
          ∀ w2, localStorage w2 = localStorage w1 →
                currentUser (app (step host DOMContentLoaded w2)) = Some u)).
Proof.
  split; [| split].
  - intros w s u Hs Ht Hp.
    destruct (constructor_restores s u w Hs Ht Hp) as (? & ? & ? & ? & ? & _).
    by repeat split.
  - intros w Hs.
    destruct (constructor_asks_to_log_in w Hs) as (? & ? & ? & _).
    by repeat split.
  - intros w r u Hr.
    destruct (handleLogin_settled_stores r u w Hr) as (w1 & E & Hst & Hu & _).
    exists w1. repeat split; try assumption.
    intros Hp Ht w2 Hw2.
    apply (constructor_restores (JSON_stringify_user host u) u w2);
      [by rewrite Hw2 | assumption | assumption].
Qed.

End Startup.

Lemma startup_follows_storage_witness :
  (let w' := step Demo.host DOMContentLoaded Demo.logged_in in
   currentUser (app w') = Some Demo.alice
   ∧ hidden (dom w') "login-modal" = true
   ∧ hidden (dom w') "main-interface" = false
   ∧ text (dom w') !! "current-user-name" = Some "alice")
  ∧ (let w' := step Demo.host DOMContentLoaded Demo.fresh in
     currentUser (app w') = None
     ∧ hidden (dom w') "login-modal" = false
     ∧ hidden (dom w') "main-interface" = true)
  ∧ (∃ w1,
       handleLogin_settled Demo.host
         (Response true
            (Some {| result_user := Some Demo.bob; result_user_null := false;
                 result_detail := None;
                     result_message := None |})) Demo.fresh = Ok tt w1
       ∧ localStorage w1 !! storage_key = Some "record:u-bob"
       ∧ currentUser (app w1) = Some Demo.bob
       ∧ currentUser (app (step Demo.host DOMContentLoaded w1)) = Some Demo.bob).
Proof.
  destruct (startup_follows_storage Demo.host) as (Hstored & Habsent & Hlogin).
  split; [| split].
  - apply (Hstored Demo.logged_in "record:u-alice" Demo.alice);
      vm_compute; reflexivity.
  - apply (Habsent Demo.fresh). vm_compute. reflexivity.
  - destruct (Hlogin Demo.fresh
                {| result_user := Some Demo.bob; result_user_null := false;
                 result_detail := None;
                   result_message := None |} Demo.bob eq_refl)
      as (w1 & E & Hst & Hu & Hback).
    exists w1. repeat split; try assumption.
    apply Hback; vm_compute; reflexivity.
Defined.


(** ** Reconnecting *)

Section Reconnect.

Variable host : Host.

Lemma close_schedules n w :
  (n < length (sockets w))%nat →
  step host (SocketClose n) w
  = add_timer 3000 Reconnect
      (add_console
         (Log "WebSocket disconnected, attempting to reconnect...") w).
Proof.
  intros Hn. cbn [step]. unfold on_socket.
  by rewrite bool_decide_eq_true_2 by assumption.
Qed.

Lemma timer_reconnects i ms u w :
  timers w !! i = Some (ms, Reconnect) →
  currentUser (app w) = Some u →
  step host (TimerFired i) w
  = set_app (with_websocket (Some (reopened host u w)))
      (add_socket (reopened host u w) (set_timers (delete i (timers w)) w)).
Proof.
  intros Ht Hu. cbn [step]. rewrite Ht. cbn [run_callback].
  by erewrite connectWebSocket_ok by exact Hu.
Qed.

Lemma delete_last {A} (l : list A) (x : A) : delete (length l) (l ++ [x]) = l.
Proof.
  induction l as [| y l IH]; [reflexivity |].
  simpl. by rewrite IH.
Qed.

(** One close and the firing of the timer it set. *)
Lemma cycle_once u w :
  currentUser (app w) = Some u →
  sockets w ≠ [] →
  let closed := step host (SocketClose (length (sockets w) - 1)) w in
  let again := step host (TimerFired (length (timers w))) closed in
  timers closed = timers w ++ [(3000, Reconnect)]
  ∧ alerts closed = alerts w
  ∧ dom closed = dom w
  ∧ app closed = app w
  ∧ sockets closed = sockets w
  ∧ again
    = set_app (with_websocket (Some (reopened host u w)))
        (add_socket (reopened host u w)
           (add_console
              (Log "WebSocket disconnected, attempting to reconnect...") w)).
Proof.
  intros Hu Hs closed again.
  assert (Hn : (length (sockets w) - 1 < length (sockets w))%nat).
  { destruct (sockets w); [done | simpl; lia]. }
  assert (Ec : closed
               = add_timer 3000 Reconnect
                   (add_console
                      (Log "WebSocket disconnected, attempting to reconnect...")
                      w)).
  { unfold closed. by apply close_schedules. }
  repeat split; try (rewrite Ec; reflexivity).
  unfold again. rewrite Ec.
  erewrite (timer_reconnects _ 3000 u).
  - unfold reopened, set_timers, add_socket, set_app. cbn.
    by rewrite delete_last.
  - cbn. apply list_lookup_middle. reflexivity.
  - exact Hu.
Qed.

Lemma reconnect_cycles_S k : ∀ w,
  reconnect_cycles host (S k) w
  = reconnect_cycles host 1 (reconnect_cycles host k w).
Proof.
  induction k as [| k IH]; intros w; [reflexivity |].
  change (reconnect_cycles host (S (S k)) w)
    with (reconnect_cycles host (S k) (reconnect_cycles host 1 w)).
  rewrite IH. reflexivity.
Qed.

(** A socket once opened stays in the list. *)
Lemma close_keeps_sockets n w : sockets (step host (SocketClose n) w) = sockets w.
Proof.
  cbn [step]. unfold on_socket. by destruct (bool_decide _).
Qed.

Lemma timeout_keeps_sockets i w j s :
  sockets w !! j = Some s → sockets (step host (TimerFired i) w) !! j = Some s.
Proof.
  intros Hj. cbn [step]. destruct (timers w !! i) as [[ms cb] |]; [| exact Hj].
  destruct cb; cbn [run_callback].
  - unfold connectWebSocket, bind, this_currentUser. cbn.
    destruct (currentUser (app w)); cbn; [| exact Hj].
    by apply lookup_app_l_Some.
  - exact Hj.
Qed.

Lemma reconnect_cycles_keeps_sockets k : ∀ w j s,
  sockets w !! j = Some s →
  sockets (reconnect_cycles host k w) !! j = Some s.
Proof.
  induction k as [| k IH]; intros w j s Hj; [exact Hj |].
  cbn [reconnect_cycles]. apply IH, timeout_keeps_sockets.
  by rewrite close_keeps_sockets.
Qed.

Lemma reconnect_cycles_invariant u k : ∀ w,
  currentUser (app w) = Some u →
  sockets w ≠ [] →
  let wk := reconnect_cycles host k w in
  currentUser (app wk) = Some u
  ∧ length (sockets wk) = (length (sockets w) + k)%nat
  ∧ timers wk = timers w
  ∧ alerts wk = alerts w
  ∧ dom wk = dom w
  ∧ (∀ j s, sockets wk !! j = Some s → (length (sockets w) ≤ j)%nat →
            ws_url s = wsUrl host u).
Proof.
  induction k as [| k IH]; intros w Hu Hs.
  - cbn. repeat split; try done.
    intros j s Hj Hle. apply lookup_lt_Some in Hj. lia.
  - destruct (cycle_once u w Hu Hs) as (_ & _ & _ & _ & _ & Eagain).
    cbn zeta. cbn [reconnect_cycles]. rewrite Eagain.
    set (w1 := set_app _ _).
    assert (Hu1 : currentUser (app w1) = Some u) by exact Hu.
    assert (Hs1 : sockets w1 ≠ []).
    { unfold w1. cbn. by destruct (sockets w). }
    destruct (IH w1 Hu1 Hs1) as (Hc & Hlen & Ht & Ha & Hd & Hurl).
    assert (Hl1 : length (sockets w1) = S (length (sockets w))).
    { unfold w1. cbn. rewrite length_app. simpl. lia. }
    repeat split; try assumption.
    + rewrite Hlen, Hl1. lia.
    + intros j s Hj Hle.
      destruct (decide (j = length (sockets w))) as [-> | Hne].
      * assert (Hin : sockets w1 !! length (sockets w)
                      = Some (reopened host u w)).
        { unfold w1. cbn. apply list_lookup_middle. reflexivity. }
        apply (reconnect_cycles_keeps_sockets k) in Hin.
        rewrite Hin in Hj. by inversion Hj.
      * apply (Hurl j s Hj). rewrite Hl1. lia.
Qed.

(** C9. However many times the channel has closed and been reopened
    before, a close sets exactly one timer, of 3000 ms, whose firing opens
    a new socket to the address computed for the current user, the same
    each time; that timer is then gone and the next close sets the next
    one.  No alert is raised and the document is not touched, at the close
    or at the reconnection. *)
Theorem reconnect_every_time (u : User) (w : World) (k : nat) :
  currentUser (app w) = Some u →
  sockets w ≠ [] →
  let wk := reconnect_cycles host k w in
  let closed := step host (SocketClose (length (sockets wk) - 1)) wk in
  let again := step host (TimerFired (length (timers wk))) closed in
  timers wk = timers w
  ∧ timers closed = timers wk ++ [(3000, Reconnect)]
  ∧ sockets closed = sockets wk
  ∧ alerts closed = alerts w
  ∧ dom closed = dom w
  ∧ sockets again
    = sockets wk ++ [{| ws_serial := length (sockets w) + k;
                        ws_url := wsUrl host u |}]
  ∧ websocket (app again)
    = Some {| ws_serial := length (sockets w) + k; ws_url := wsUrl host u |}
  ∧ timers again = timers w
  ∧ alerts again = alerts w
  ∧ dom again = dom w
  ∧ again = reconnect_cycles host (S k) w.
Proof.
  intros Hu Hs wk closed again.
  destruct (reconnect_cycles_invariant u k w Hu Hs)
    as (Huk & Hlen & Ht & Ha & Hd & _).
  fold wk in Huk, Hlen, Ht, Ha, Hd.
  assert (Hsk : sockets wk ≠ []).
  { intros E. rewrite E in Hlen. destruct (sockets w); [done | simpl in Hlen; lia]. }
  destruct (cycle_once u wk Huk Hsk) as (Htc & Hac & Hdc & _ & Hsc & Eagain).
  fold closed in Htc, Hac, Hdc, Hsc. fold closed again in Eagain.
  assert (Er : reopened host u wk
               = {| ws_serial := length (sockets w) + k;
                    ws_url := wsUrl host u |}).
  { unfold reopened. by rewrite Hlen. }
  rewrite Er in Eagain.
  repeat split; try congruence.
  - by rewrite Eagain.
  - by rewrite Eagain.
  - rewrite Eagain. cbn. exact Ht.
  - rewrite Eagain. cbn. exact Ha.
  - rewrite Eagain. cbn. exact Hd.
  - rewrite reconnect_cycles_S. reflexivity.
Qed.

End Reconnect.

Lemma reconnect_every_time_witness :
  let wk := reconnect_cycles Demo.host 2 Demo.logged_in in
  let closed := step Demo.host (SocketClose (length (sockets wk) - 1)) wk in
  let again := step Demo.host (TimerFired (length (timers wk))) closed in
  timers wk = timers Demo.logged_in
  ∧ timers closed = timers wk ++ [(3000, Reconnect)]
  ∧ sockets closed = sockets wk
  ∧ alerts closed = alerts Demo.logged_in
  ∧ dom closed = dom Demo.logged_in
  ∧ sockets again
    = sockets wk ++ [{| ws_serial := length (sockets Demo.logged_in) + 2;
                        ws_url := wsUrl Demo.host Demo.alice |}]
  ∧ websocket (app again)
    = Some {| ws_serial := length (sockets Demo.logged_in) + 2;
              ws_url := wsUrl Demo.host Demo.alice |}
  ∧ timers again = timers Demo.logged_in
  ∧ alerts again = alerts Demo.logged_in
  ∧ dom again = dom Demo.logged_in
  ∧ again = reconnect_cycles Demo.host 3 Demo.logged_in.
Proof.
  apply (reconnect_every_time Demo.host Demo.alice Demo.logged_in 2).
  - vm_compute. reflexivity.
  - vm_compute. discriminate.
Defined.



(** ** What a computation leaves alone *)

Section KeepsLemmas.

Context {B : Type} (f : World → B).

Lemma Keeps_ret {A} (a : A) : Keeps f (ret a).
Proof. intros w. reflexivity. Qed.

Lemma Keeps_throw {A} e : Keeps f (throw (A := A) e).
Proof. intros w. reflexivity. Qed.

Lemma Keeps_bind {A C} (c : M A) (k : A → M C) :
  Keeps f c → (∀ a, Keeps f (k a)) → Keeps f (bind c k).
Proof.
  intros Hc Hk w. unfold bind. specialize (Hc w).
  destruct (c w) as [a w1 | e w1]; simpl in *.
  - by rewrite Hk.
  - exact Hc.
Qed.

Lemma Keeps_try_catch (c : M unit) (h : Exception → M unit) :
  Keeps f c → (∀ e, Keeps f (h e)) → Keeps f (try_catch c h).
Proof.
  intros Hc Hh w. unfold try_catch. specialize (Hc w).
  destruct (c w) as [a w1 | e w1]; simpl in *.
  - exact Hc.
  - by rewrite Hh.
Qed.

Lemma Keeps_modify (g : World → World) :
  (∀ w, f (g w) = f w) → Keeps f (modify g).
Proof. intros Hg w. apply Hg. Qed.

Lemma Keeps_gets {A} (g : World → A) : Keeps f (gets g).
Proof. intros w. reflexivity. Qed.

Lemma Keeps_this_currentUser : Keeps f this_currentUser.
Proof. intros w. unfold this_currentUser. by destruct (currentUser (app w)). Qed.

Lemma Keeps_forEach {A} (g : A → M unit) (l : list A) :
  (∀ x, Keeps f (g x)) → Keeps f (forEach g l).
Proof.
  intros Hg. induction l as [| x l IH]; simpl.
  - apply Keeps_ret.
  - apply Keeps_bind; auto.
Qed.

Lemma Unlogged_report {A} (r : Result A) :
  Unlogged f → f (report r) = f (world_of r).
Proof. intros Hf. destruct r; [reflexivity | apply Hf]. Qed.

Lemma Keeps_detached (c : M unit) :
  Unlogged f → Keeps f c → Keeps f (detached c).
Proof.
  intros Hf Hc w. unfold detached. simpl. by rewrite Unlogged_report.
Qed.

Lemma Keeps_loadContacts :
  Unlogged f → (∀ r k w, f (add_fetched r k w) = f w) → Keeps f loadContacts.
Proof.
  intros Hlog Hfetch w. unfold loadContacts, this_currentUser.
  destruct (currentUser (app w)); simpl.
  - apply Hfetch.
  - by rewrite Hfetch, Hlog.
Qed.

End KeepsLemmas.

(** The side condition of an update: the observation reads a field the
    update does not write, or a key of the document it does not write. *)
Ltac keeps_side :=
  first
    [ reflexivity
    | unfold public_surfaces, surface, children_of, stored; cbn;
      rewrite ?lookup_insert_ne by done; reflexivity ].

Ltac keeps_step :=
  first
    [ apply Keeps_bind; [| intros ?]
    | apply Keeps_try_catch; [| intros ?]
    | apply Keeps_detached; [intros ? ?; reflexivity |]
    | apply Keeps_forEach; intros ?
    | apply Keeps_modify; intros ?; keeps_side
    | apply Keeps_gets
    | apply Keeps_ret
    | apply Keeps_throw
    | apply Keeps_this_currentUser
    | apply Keeps_loadContacts; [intros ? ?; reflexivity | intros ? ? ?; reflexivity]
    | match goal with
      | |- Keeps _ (match ?x with _ => _ end) => destruct x
      | |- Keeps _ (if ?b then _ else _) => destruct b
      | |- Keeps _ (let (_, _) := ?x in _) => destruct x
      end ].

Ltac keeps :=
  cbv [classList_add classList_remove set_className set_textContent
       set_src set_value get_value set_innerHTML appendChild fetch
       alert console_log console_error setTimeout assign];
  repeat keeps_step.

(** Unfolds the methods down to the primitives. *)
Ltac open_methods :=
  unfold handleLogin, sendPublicMessage, sendPrivateMessage,
    closePrivateChat, handleContactClick, handleAvatarClick,
    openPrivateChat, loadPrivateMessages, openActivitySelectionModal,
    handleActivityClick, inviteBtnClick, sendActivityInvitation,
    closeActivitySelectionModal, respondToInvitation,
    respondToInvitation_settled, ws_onopen,
    ws_onclose, ws_onerror, handleLogin_settled, loadContacts_settled,
    renderContacts, loadPublicMessages_settled, loadPublicMessages,
    sendPublicMessage_settled, sendPrivateMessage_settled,
    sendActivityInvitation_settled, closeActivitySelectionModal,
    showMainInterface, connectWebSocket, updateChatWindowVisibility,
    showLoginModal, handleWebSocketMessage, handleNewMessage,
    addMessageToChat, handleActivityInvitation, handleInvitationResponse,
    showNotification, constructor, init, setupEventListeners.

(** Brings [f (step ev w) = f w] down to the handler of the event. *)
Ltac to_handler f :=
  cbn [step]; unfold on_ui, on_socket, settled;
  repeat match goal with
         | |- context [if ?b then _ else _] => destruct b
         | |- context [match take ?k ?l with _ => _ end] =>
             destruct (take k l)
         | |- context [match ?l !! ?i with _ => _ end] =>
             destruct (l !! i) as [[? ?] |]
         end;
  try reflexivity;
  rewrite (Unlogged_report f) by (intros ? ?; reflexivity);
  match goal with
  | |- _ (world_of (?c ?w0)) = _ =>
      transitivity (f w0); [| reflexivity];
      generalize w0;
      change (Keeps f c)
  end.


(** ** Who is logged in, and what is stored *)

Section Identity.

Variable host : Host.

Lemma step_keeps_identity (ev : Event) (w : World) :
  beside_login ev → identity (step host ev w) = identity w.
Proof.
  intros Hev.
  destruct ev; try contradiction; to_handler identity;
    try match goal with
        | |- Keeps _ (run_callback _ ?cb) => destruct cb; cbn [run_callback]
        end;
    unfold ws_onmessage; open_methods; keeps.
Qed.

(** X1. Nothing but a reload of the page and the answer to a login changes the
    current user or the local storage: no message, invitation, click,
    timer or failed request logs the user out or rewrites the record. *)
Theorem identity_changes_only_at_login (ev : Event) (w : World) :
  beside_login ev →
  currentUser (app (step host ev w)) = currentUser (app w)
  ∧ localStorage (step host ev w) = localStorage w.
Proof.
  intros Hev. pose proof (step_keeps_identity ev w Hev) as H.
  unfold identity in H. by inversion H.
Qed.

Lemma Keeps_localStorage_showMainInterface :
  Keeps localStorage (showMainInterface host).
Proof. open_methods. keeps. Qed.

Lemma constructor_keeps_localStorage w :
  localStorage (step host DOMContentLoaded w) = localStorage w.
Proof.
  to_handler localStorage. open_methods. keeps.
Qed.

Lemma handleLogin_settled_storage o w :
  localStorage (world_of (handleLogin_settled host o w))
  = match o with
    | Response true (Some r) =>
        <[storage_key := match result_user r with
                         | Some u => JSON_stringify_user host u
                         | None =>
                             if result_user_null r then "null"
                             else "undefined"
                         end]> (localStorage w)
    | _ => localStorage w
    end.
Proof.
  destruct o as [| [] [r |]]; try reflexivity.
  unfold handleLogin_settled, try_catch.
  unfold bind at 1. cbn [assign modify]. unfold bind at 1. cbn [modify].
  unfold detached. cbn [world_of].
  etrans; [apply (Unlogged_report localStorage); intros ? ?; reflexivity |].
  apply Keeps_localStorage_showMainInterface.
Qed.

Lemma step_keeps_stored ev w :
  is_Some (stored w) → is_Some (stored (step host ev w)).
Proof.
  intros Hs.
  assert (Hcases : beside_login ev ∨ ev = DOMContentLoaded
                   ∨ ∃ o, ev = LoginSettled o).
  { destruct ev; simpl; eauto. }
  destruct Hcases as [Hb | [-> | [o ->]]].
  - assert (E : localStorage (step host ev w) = localStorage w).
    { pose proof (step_keeps_identity ev w Hb) as H.
      unfold identity in H. by inversion H. }
    unfold stored. generalize E.
    generalize (localStorage (step host ev w)). by intros ? ->.
  - unfold stored. generalize (constructor_keeps_localStorage w).
    generalize (localStorage (step host DOMContentLoaded w)). by intros ? ->.
  - cbn [step]. unfold settled.
    destruct (take K_handleLogin (fetched w)) as [l |]; [| exact Hs].
    unfold stored.
    match goal with
    | |- context [report (handleLogin_settled host ?o ?w0)] =>
        replace (localStorage (report (handleLogin_settled host o w0)))
          with (localStorage (world_of (handleLogin_settled host o w0)))
          by (symmetry; apply (Unlogged_report localStorage);
              intros ? ?; reflexivity);
        rewrite handleLogin_settled_storage;
        destruct o as [| [] [r |]]; try exact Hs
    end.
    rewrite lookup_insert_eq. by eexists.
Qed.

(** X2. The class has no way to log out: once a record is stored under
    [chatwithme_user], whatever happens afterwards -- failed logins,
    closed sockets, reloads, refused requests -- a record is still
    stored under that key. *)
Theorem stored_record_is_never_erased (evs : list Event) (w : World) :
  is_Some (stored w) → is_Some (stored (run host evs w)).
Proof.
  revert w. induction evs as [| ev evs IH]; intros w Hs; [exact Hs |].
  simpl. apply IH. by apply step_keeps_stored.
Qed.

End Identity.

Lemma identity_changes_only_at_login_witness :
  currentUser (app (step Demo.host (SocketClose 0) Demo.logged_in))
  = currentUser (app Demo.logged_in)
  ∧ localStorage (step Demo.host (SocketClose 0) Demo.logged_in)
    = localStorage Demo.logged_in.
Proof.
  apply (identity_changes_only_at_login Demo.host (SocketClose 0)
           Demo.logged_in).
  exact I.
Defined.

Lemma stored_record_is_never_erased_witness :
  is_Some (stored (run Demo.host
                     [LoginSettled Rejected; DOMContentLoaded; SocketClose 0]
                     Demo.logged_in)).
Proof.
  apply (stored_record_is_never_erased Demo.host
           [LoginSettled Rejected; DOMContentLoaded; SocketClose 0]
           Demo.logged_in).
  vm_compute. by eexists.
Defined.


(** ** What opens the private chat, and what fills the public rooms *)

Section Frames.

Variable host : Host.

(** X3. Only a click on a contact, the closing of the chat and a reload change
    whom the private chat is open with: no inbound message, private or
    public, opens a chat or switches it to its sender. *)
Theorem private_chat_changes_only_by_user (ev : Event) (w : World) :
  beside_chat_controls ev →
  currentPrivateChatUser (app (step host ev w))
  = currentPrivateChatUser (app w).
Proof.
  intros Hev. change (peer (step host ev w) = peer w).
  destruct ev; try contradiction; to_handler peer;
    try match goal with
        | |- Keeps _ (run_callback _ ?cb) => destruct cb; cbn [run_callback]
        end;
    unfold ws_onmessage; open_methods; keeps.
Qed.

(** X4. The public rooms show only what the server delivered: apart from a
    frame of the push channel and the arrival of the history, no event
    changes either room.  In particular sending a message, and the answer
    to the request, never put the message on the page. *)
Theorem public_rooms_change_only_by_delivery (ev : Event) (w : World) :
  beside_delivery ev →
  children_of (dom (step host ev w)) "chatwithme-messages"
  = children_of (dom w) "chatwithme-messages"
  ∧ children_of (dom (step host ev w)) "towhomilovethemost-messages"
    = children_of (dom w) "towhomilovethemost-messages".
Proof.
  intros Hev.
  assert (H : public_surfaces (step host ev w) = public_surfaces w).
  { destruct ev; try contradiction; to_handler public_surfaces;
      try match goal with
          | |- Keeps _ (run_callback _ ?cb) => destruct cb; cbn [run_callback]
          end;
      open_methods; keeps. }
  unfold public_surfaces, surface in H. by inversion H.
Qed.

End Frames.

Lemma private_chat_changes_only_by_user_witness :
  currentPrivateChatUser
    (app (step Demo.host (SocketMessage 0 "frame:psst") Demo.chatting_with_bob))
  = currentPrivateChatUser (app Demo.chatting_with_bob).
Proof.
  apply (private_chat_changes_only_by_user Demo.host
           (SocketMessage 0 "frame:psst") Demo.chatting_with_bob).
  exact I.
Defined.

(** The answer to alice's send arrives: her input is emptied, the rooms
    stay as they were. *)
Lemma public_rooms_change_only_by_delivery_witness :
  (children_of
     (dom (step Demo.host (SendPublicSettled "chatwithme" (Response true None))
             Demo.sending)) "chatwithme-messages"
   = children_of (dom Demo.sending) "chatwithme-messages"
   ∧ children_of
       (dom (step Demo.host (SendPublicSettled "chatwithme" (Response true None))
               Demo.sending)) "towhomilovethemost-messages"
     = children_of (dom Demo.sending) "towhomilovethemost-messages")
  ∧ fetched Demo.sending ≠ []
  ∧ value_of (dom Demo.sending) "chatwithme-input" = " tea & cake = 5? "
  ∧ value_of
      (dom (step Demo.host (SendPublicSettled "chatwithme" (Response true None))
              Demo.sending)) "chatwithme-input" = "".
Proof.
  split.
  - apply (public_rooms_change_only_by_delivery Demo.host
             (SendPublicSettled "chatwithme" (Response true None))
             Demo.sending).
    exact I.
  - split; [vm_compute; discriminate |].
    split; vm_compute; reflexivity.
Defined.


(** ** Login that does not succeed *)

Section LoginFailure.

Variable host : Host.

(** X5. A login that is not answered by a 2xx response with a readable body
    changes nothing but the alerts: no user is set, nothing is stored, no
    socket is opened, no request follows, the login dialog stays.  The
    alert quotes the server's [detail], else its [message], else says
    [Unknown error occurred]; a rejected request and an unreadable body,
    even under a 2xx status, are reported as a failure to connect. *)
Theorem failed_login_changes_nothing (o : Settled LoginResult) (w : World) :
  (∀ r, o ≠ Response true (Some r)) →
  ∃ w',
    handleLogin_settled host o w = Ok tt w'
    ∧ app w' = app w
    ∧ dom w' = dom w
    ∧ localStorage w' = localStorage w
    ∧ sockets w' = sockets w
    ∧ fetched w' = fetched w
    ∧ alerts w' = alerts w ++ [login_failure_notice o].
Proof.
  intros Hfail. destruct o as [| [] [r |]];
    try (by destruct (Hfail r));
    eexists; (split; [reflexivity |]); by repeat split.
Qed.

End LoginFailure.

Lemma failed_login_changes_nothing_witness :
  ∃ w',
    handleLogin_settled Demo.host
      (Response false
         (Some {| result_user := None; result_user_null := false;
                 result_detail := Some "";
                  result_message := Some "name taken" |})) Demo.fresh
    = Ok tt w'
    ∧ app w' = app Demo.fresh
    ∧ dom w' = dom Demo.fresh
    ∧ localStorage w' = localStorage Demo.fresh
    ∧ sockets w' = sockets Demo.fresh
    ∧ fetched w' = fetched Demo.fresh
    ∧ alerts w' = alerts Demo.fresh ++ ["Failed to create user: name taken"].
Proof.
  apply (failed_login_changes_nothing Demo.host
           (Response false
              (Some {| result_user := None; result_user_null := false;
                 result_detail := Some "";
                       result_message := Some "name taken" |})) Demo.fresh).
  intros r. discriminate.
Defined.

(** ** What a sent message puts on the wire *)

Lemma truthy_nonempty (s : string) : s ≠ "" → Js.truthy s = true.
Proof. by destruct s. Qed.

Lemma encoded_char (c : Js.ascii) :
  (Js.unreserved c = true ∧ breaks_field c = false)
  ∨ (Js.unreserved c = false
     ∧ breaks_field (Js.hex_digit (Js.code c / 16)%N) = false
     ∧ breaks_field (Js.hex_digit (Js.code c mod 16)%N) = false).
Proof.
  destruct c as [[] [] [] [] [] [] [] []]; vm_compute; auto.
Qed.

Lemma encodeURIComponent_holds_no_separator (s : string) :
  Forall (fun c => breaks_field c = false) (chars (Js.encodeURIComponent s)).
Proof.
  induction s as [| c s IH]; [constructor |].
  cbn [Js.encodeURIComponent].
  destruct (encoded_char c) as [[Hu Hb] | (Hu & H1 & H2)]; rewrite Hu; cbn [chars].
  - by constructor.
  - repeat constructor; assumption.
Qed.

Section Sending.

Variable host : Host.

(** X6. A public message goes out as one request to [/messages/send] whose
    body has three fields, the sender, the content and [is_public=true].
    The content is the typed text, trimmed and percent-encoded: no [&],
    [=], [+], [#] or space of the text reaches the body, so the text
    cannot end the field or add another.  The input keeps the text until
    the answer arrives. *)
Theorem public_message_request (chatSide : string) (u : User) (w : World) :
  currentUser (app w) = Some u →
  Js.trim (value_of (dom w) (chatSide +:+ "-input")) ≠ "" →
  let encoded :=
    Js.encodeURIComponent (Js.trim (value_of (dom w) (chatSide +:+ "-input"))) in
  sendPublicMessage chatSide w
  = Ok tt (add_fetched
             (POST "/messages/send"
                (UrlEncoded ("sender_id=" +:+ user_id u +:+ "&content="
                   +:+ encoded +:+ "&is_public=true")))
             (K_sendPublicMessage chatSide) w)
  ∧ Forall (fun c => breaks_field c = false) (chars encoded).
Proof.
  intros Hu Ht encoded. split.
  - unfold sendPublicMessage, bind, get_value, gets, try_catch,
      this_currentUser.
    rewrite (truthy_nonempty _ Ht). cbn [negb]. rewrite Hu. reflexivity.
  - apply encodeURIComponent_holds_no_separator.
Qed.

(** X7. A private message goes to the user the private chat is open with at
    the moment of sending: the request names that user as recipient and
    carries [is_public=false]; its content is encoded as for a public
    message. *)
Theorem private_message_request (u p : User) (w : World) :
  currentUser (app w) = Some u →
  currentPrivateChatUser (app w) = Some p →
  Js.trim (value_of (dom w) "private-message-input") ≠ "" →
  let encoded :=
    Js.encodeURIComponent (Js.trim (value_of (dom w) "private-message-input")) in
  sendPrivateMessage w
  = Ok tt (add_fetched
             (POST "/messages/send"
                (UrlEncoded ("sender_id=" +:+ user_id u +:+ "&content="
                   +:+ encoded +:+ "&recipient_id=" +:+ user_id p
                   +:+ "&is_public=false")))
             K_sendPrivateMessage w)
  ∧ Forall (fun c => breaks_field c = false) (chars encoded).
Proof.
  intros Hu Hp Ht encoded. split.
  - unfold sendPrivateMessage, bind, get_value, gets, try_catch,
      this_currentUser.
    rewrite Hp. cbn beta iota.
    rewrite (truthy_nonempty _ Ht). cbn [negb]. rewrite Hu. reflexivity.
  - apply encodeURIComponent_holds_no_separator.
Qed.

End Sending.

Lemma public_message_request_witness :
  let encoded :=
    Js.encodeURIComponent
      (Js.trim (value_of (dom Demo.typing) ("chatwithme" +:+ "-input"))) in
  sendPublicMessage "chatwithme" Demo.typing
  = Ok tt (add_fetched
             (POST "/messages/send"
                (UrlEncoded ("sender_id=" +:+ user_id Demo.alice +:+ "&content="
                   +:+ encoded +:+ "&is_public=true")))
             (K_sendPublicMessage "chatwithme") Demo.typing)
  ∧ Forall (fun c => breaks_field c = false) (chars encoded).
Proof.
  apply (public_message_request "chatwithme" Demo.alice Demo.typing).
  - vm_compute. reflexivity.
  - vm_compute. discriminate.
Defined.

Lemma private_message_request_witness :
  let encoded :=
    Js.encodeURIComponent
      (Js.trim (value_of (dom Demo.whispering) "private-message-input")) in
  sendPrivateMessage Demo.whispering
  = Ok tt (add_fetched
             (POST "/messages/send"
                (UrlEncoded ("sender_id=" +:+ user_id Demo.alice +:+ "&content="
                   +:+ encoded +:+ "&recipient_id=" +:+ user_id Demo.bob
                   +:+ "&is_public=false")))
             K_sendPrivateMessage Demo.whispering)
  ∧ Forall (fun c => breaks_field c = false) (chars encoded).
Proof.
  apply (private_message_request Demo.alice Demo.bob Demo.whispering).
  - vm_compute. reflexivity.
  - vm_compute. reflexivity.
  - vm_compute. discriminate.
Defined.


(** ** The private chat *)

Lemma find_contact_first userId (l1 l2 : list Contact) (c : Contact) :
  (∀ x, x ∈ l1 → user_id (contact_user x) ≠ userId) →
  user_id (contact_user c) = userId →
  find_contact userId (l1 ++ c :: l2) = Some c.
Proof.
  intros Hl1 Hc. unfold find_contact.
  induction l1 as [| x l1 IH]; simpl.
  - by rewrite bool_decide_eq_true_2.
  - rewrite bool_decide_eq_false_2 by (apply Hl1; left).
    apply IH. intros y Hy. apply Hl1. by right.
Qed.

Lemma find_contact_none userId (cs : list Contact) :
  (∀ x, x ∈ cs → user_id (contact_user x) ≠ userId) →
  find_contact userId cs = None.
Proof.
  intros Hcs. unfold find_contact.
  induction cs as [| x cs IH]; simpl; [reflexivity |].
  rewrite bool_decide_eq_false_2 by (apply Hcs; left).
  apply IH. intros y Hy. apply Hcs. by right.
Qed.

Section PrivateChat.

Variable host : Host.

Lemma openPrivateChat_world u w :
  openPrivateChat u w
  = Ok tt (set_dom (chat_opened u)
             (set_app (with_currentPrivateChatUser (Some u)) w)).
Proof. reflexivity. Qed.

Lemma chat_opened_twice u1 u2 d :
  chat_opened u2 (chat_opened u1 d) = chat_opened u2 d.
Proof.
  destruct d.
  unfold chat_opened, with_children, with_classes, with_text, classList.
  cbn. rewrite lookup_insert_eq, !insert_insert_eq. cbn.
  f_equal. f_equal. apply set_eq. intros x. rewrite !elem_of_difference.
  tauto.
Qed.

Lemma openPrivateChat_overwrites u1 u2 w :
  world_of (openPrivateChat u2 (world_of (openPrivateChat u1 w)))
  = world_of (openPrivateChat u2 w).
Proof.
  rewrite !openPrivateChat_world. cbn [world_of].
  rewrite ?openPrivateChat_world. cbn [world_of].
  destruct w as [a d ? ? ? ? ? ? ? ?]. unfold set_dom, set_app. cbn.
  rewrite chat_opened_twice. by destruct a.
Qed.

(** X8. The private chat has one peer.  Opening it for a second user while it
    is open for a first leaves exactly what opening it for the second
    alone leaves: that user as peer, the title with that name, the dialog
    shown, and a thread reset to its placeholder -- whatever private
    messages the thread showed are gone.  Closing it clears the peer and
    hides the dialog. *)
Theorem private_chat_holds_one_peer (u1 u2 : User) (w : World) :
  let w2 := world_of (openPrivateChat u2 (world_of (openPrivateChat u1 w))) in
  let w3 := world_of (closePrivateChat w2) in
  w2 = world_of (openPrivateChat u2 w)
  ∧ currentPrivateChatUser (app w2) = Some u2
  ∧ text (dom w2) !! "private-chat-title" = Some ("Chat with " +:+ username u2)
  ∧ hidden (dom w2) "private-chat-modal" = false
  ∧ children_of (dom w2) "private-messages" = [HistoryPlaceholder]
  ∧ currentPrivateChatUser (app w3) = None
  ∧ hidden (dom w3) "private-chat-modal" = true.
Proof.
  intros w2 w3. unfold w3, w2. rewrite openPrivateChat_overwrites.
  split; [reflexivity |].
  rewrite openPrivateChat_world. cbn [world_of].
  repeat split.
  - unfold chat_opened. cbn. by rewrite lookup_insert_eq.
  - unfold hidden, classList, chat_opened. cbn. rewrite lookup_insert_eq. cbn.
    apply bool_decide_eq_false.
    rewrite elem_of_difference, elem_of_singleton. tauto.
  - unfold children_of, chat_opened. cbn. by rewrite lookup_insert_eq.
  - apply (hidden_after_add "private-chat-modal").
Qed.

(** X9. A click on a contact bubble opens the private chat with the first
    contact of the list that has the clicked id, and a click on its avatar
    opens the invitation dialog for that same contact instead; a click
    that reaches the bubble's handler from the avatar does nothing. *)
Theorem contact_click_finds_by_id (userId : string) (l1 l2 : list Contact)
    (c : Contact) (w : World) :
  contacts (app w) = ContactList (l1 ++ c :: l2) →
  (∀ x, x ∈ l1 → user_id (contact_user x) ≠ userId) →
  user_id (contact_user c) = userId →
  handleContactClick false userId w = openPrivateChat (contact_user c) w
  ∧ handleAvatarClick userId w = openActivitySelectionModal (contact_user c) w
  ∧ handleContactClick true userId w = Ok tt w.
Proof.
  intros Hcs Hl1 Hc.
  unfold handleContactClick, handleAvatarClick, bind, gets.
  rewrite Hcs. cbn beta iota.
  rewrite (find_contact_first userId l1 l2 c Hl1 Hc). by repeat split.
Qed.

(** X10. A click that carries an id no contact has does nothing at all: no
    chat is opened, no dialog shown, and the chat that is open stays. *)
Theorem unknown_contact_click_is_ignored (userId : string)
    (cs : list Contact) (w : World) :
  contacts (app w) = ContactList cs →
  (∀ x, x ∈ cs → user_id (contact_user x) ≠ userId) →
  handleContactClick false userId w = Ok tt w
  ∧ handleAvatarClick userId w = Ok tt w.
Proof.
  intros Hw Hcs. unfold handleContactClick, handleAvatarClick, bind, gets.
  rewrite Hw. cbn beta iota.
  by rewrite (find_contact_none userId _ Hcs).
Qed.

End PrivateChat.

Lemma contact_click_finds_by_id_witness :
  handleContactClick false "u-carol" Demo.logged_in
  = openPrivateChat Demo.carol Demo.logged_in
  ∧ handleAvatarClick "u-carol" Demo.logged_in
    = openActivitySelectionModal Demo.carol Demo.logged_in
  ∧ handleContactClick true "u-carol" Demo.logged_in = Ok tt Demo.logged_in.
Proof.
  apply (contact_click_finds_by_id "u-carol" [Demo.bobs_card] []
           Demo.carols_card Demo.logged_in).
  - vm_compute. reflexivity.
  - intros x Hx. apply list_elem_of_singleton in Hx. subst x.
    vm_compute. discriminate.
  - reflexivity.
Defined.

Lemma unknown_contact_click_is_ignored_witness :
  handleContactClick false "u-dave" Demo.logged_in = Ok tt Demo.logged_in
  ∧ handleAvatarClick "u-dave" Demo.logged_in = Ok tt Demo.logged_in.
Proof.
  apply (unknown_contact_click_is_ignored "u-dave"
           [Demo.bobs_card; Demo.carols_card] Demo.logged_in).
  - vm_compute. reflexivity.
  - intros x Hx.
    apply elem_of_cons in Hx as [-> | Hx]; [vm_compute; discriminate |].
    apply list_elem_of_singleton in Hx. subst x. vm_compute. discriminate.
Defined.


(** ** The contact list *)

Section Contacts.

Variable host : Host.

Lemma forEach_bubbles (cs : list Contact) : ∀ w,
  ∃ w',
    forEach
      (fun contact =>
         appendChild "chatwithme-contacts"
           (ContactNode (createContactBubble contact)) ;;
         appendChild "towhomilovethemost-contacts"
           (ContactNode (createContactBubble contact)))
      cs w = Ok tt w'
    ∧ children_of (dom w') "chatwithme-contacts"
      = children_of (dom w) "chatwithme-contacts" ++ (bubble_of <$> cs)
    ∧ children_of (dom w') "towhomilovethemost-contacts"
      = children_of (dom w) "towhomilovethemost-contacts" ++ (bubble_of <$> cs)
    ∧ app w' = app w
    ∧ fetched w' = fetched w
    ∧ console w' = console w
    ∧ alerts w' = alerts w.
Proof.
  induction cs as [| c cs IH]; intros w.
  - exists w. simpl. rewrite !app_nil_r. by repeat split.
  - cbn [forEach]. unfold bind at 1. unfold bind at 1.
    cbn [appendChild modify].
    match goal with
    | |- context [forEach _ cs ?w1] =>
        destruct (IH w1) as (w' & E & HA & HB & Happ & Hf & Hc & Ha)
    end.
    exists w'. split; [exact E |].
    rewrite HA, HB, Happ, Hf, Hc, Ha.
    unfold children_of. cbn.
    rewrite lookup_insert_eq.
    rewrite lookup_insert_ne by done. rewrite lookup_insert_eq.
    rewrite lookup_insert_ne by done. cbn.
    rewrite <- !app_assoc. by repeat split.
Qed.

(** X11. Whatever status the answer carries, a contact list that can be read
    replaces the old one wholesale: the session holds exactly the new
    contacts, and each of the two contact lists on the page shows exactly
    their bubbles, in order, with nothing left of what was shown before.
    Then the public history is requested. *)
Theorem contacts_are_replaced_wholesale (ok : bool) (cs : list Contact)
    (w : World) :
  ∃ w',
    loadContacts_settled (Response ok (Some (ContactList cs))) w = Ok tt w'
    ∧ contacts (app w') = ContactList cs
    ∧ children_of (dom w') "chatwithme-contacts" = bubble_of <$> cs
    ∧ children_of (dom w') "towhomilovethemost-contacts" = bubble_of <$> cs
    ∧ fetched w' = fetched w ++ [history_request]
    ∧ console w' = console w
    ∧ alerts w' = alerts w.
Proof.
  unfold loadContacts_settled, renderContacts.
  unfold bind at 1. unfold try_catch.
  unfold bind at 1. cbn [assign modify].
  unfold bind at 1. cbn [set_innerHTML modify].
  unfold bind at 1. cbn [set_innerHTML modify].
  unfold bind at 1. cbn [gets app set_app set_dom with_contacts contacts].
  match goal with
  | |- context [forEach _ cs ?w1] =>
      destruct (forEach_bubbles cs w1) as (w' & E & HA & HB & Happ & Hf & Hc & Ha)
  end.
  rewrite E. eexists. split; [reflexivity |].
  cbn. rewrite HA, HB, Happ, Hf, Hc, Ha.
  unfold children_of. cbn.
  rewrite lookup_insert_ne by done. rewrite !lookup_insert_eq. cbn.
  by repeat split.
Qed.


End Contacts.



(** ** The public history and the active room *)

Lemma active_after_add id w :
  active (dom (world_of (classList_add id "active" w))) id = true.
Proof.
  unfold active, classList. simpl. rewrite lookup_insert_eq. simpl.
  apply bool_decide_eq_true. rewrite elem_of_union, elem_of_singleton.
  by right.
Qed.

Lemma active_after_remove id w :
  active (dom (world_of (classList_remove id "active" w))) id = false.
Proof.
  unfold active, classList. simpl. rewrite lookup_insert_eq. simpl.
  apply bool_decide_eq_false.
  rewrite elem_of_difference, elem_of_singleton. tauto.
Qed.

Section History.

Variable host : Host.

Lemma updateChatWindowVisibility_sets_room (u : User) (w : World) :
  currentUser (app w) = Some u →
  ∃ w',
    updateChatWindowVisibility w = Ok tt w'
    ∧ active (dom w') "chatwithme-window"
      = bool_decide (chat_side u = "chatwithme")
    ∧ active (dom w') "towhomilovethemost-window"
      = negb (bool_decide (chat_side u = "chatwithme"))
    ∧ app w' = app w
    ∧ children (dom w') = children (dom w)
    ∧ fetched w' = fetched w.
Proof.
  intros Hu. unfold updateChatWindowVisibility, bind at 1, this_currentUser.
  rewrite Hu.
  destruct (bool_decide (chat_side u = "chatwithme")); cbn;
    (eexists; split; [reflexivity |]);
    unfold active, classList; cbn;
    rewrite lookup_insert_eq;
    rewrite lookup_insert_ne by done; rewrite lookup_insert_eq; cbn;
    repeat split;
    first [ apply bool_decide_eq_true;
            rewrite elem_of_union, elem_of_singleton; by right
          | apply bool_decide_eq_false;
            rewrite elem_of_difference, elem_of_singleton; tauto ].
Qed.

(** X13. Exactly one of the two room windows is active once the visibility has
    been updated: the first room when the user's side is [chatwithme], the
    second for every other value of the side, known or not.  Nothing else
    changes. *)
Theorem one_room_is_active (u : User) (w : World) :
  currentUser (app w) = Some u →
  ∃ w',
    updateChatWindowVisibility w = Ok tt w'
    ∧ active (dom w') "chatwithme-window"
      = bool_decide (chat_side u = "chatwithme")
    ∧ active (dom w') "towhomilovethemost-window"
      = negb (bool_decide (chat_side u = "chatwithme"))
    ∧ app w' = app w
    ∧ children (dom w') = children (dom w)
    ∧ fetched w' = fetched w.
Proof.
  intros Hu. unfold updateChatWindowVisibility, bind at 1, this_currentUser.
  rewrite Hu.
  destruct (bool_decide (chat_side u = "chatwithme")); cbn;
    (eexists; split; [reflexivity |]);
    unfold active, classList; cbn;
    rewrite lookup_insert_eq;
    rewrite lookup_insert_ne by done; rewrite lookup_insert_eq; cbn;
    repeat split;
    first [ apply bool_decide_eq_true;
            rewrite elem_of_union, elem_of_singleton; by right
          | apply bool_decide_eq_false;
            rewrite elem_of_difference, elem_of_singleton; tauto ].
Qed.

Lemma forEach_history (u : User) (ms : list Message) : ∀ w,
  currentUser (app w) = Some u →
  ∃ w',
    forEach (fun message => addMessageToChat host message "public") ms w
    = Ok tt w'
    ∧ children_of (dom w') "chatwithme-messages"
      = children_of (dom w) "chatwithme-messages" ++ (flip (shown_as host) u <$> ms)
    ∧ children_of (dom w') "towhomilovethemost-messages"
      = children_of (dom w) "towhomilovethemost-messages"
        ++ (flip (shown_as host) u <$> ms)
    ∧ children_of (dom w') "private-messages"
      = children_of (dom w) "private-messages"
    ∧ classes (dom w') = classes (dom w)
    ∧ app w' = app w
    ∧ fetched w' = fetched w
    ∧ console w' = console w
    ∧ alerts w' = alerts w.
Proof.
  induction ms as [| m ms IH]; intros w Hu.
  - exists w. simpl. rewrite !app_nil_r. by repeat split.
  - cbn [forEach]. unfold bind at 1.
    rewrite (addMessageToChat_public host m u w Hu).
    cbn [world_of bind appendChild modify].
    match goal with
    | |- context [forEach _ ms ?w1] =>
        destruct (IH w1 Hu)
          as (w' & E & HA & HB & HP & Hcl & Happ & Hf & Hc & Ha)
    end.
    exists w'. split; [exact E |].
    rewrite HA, HB, HP, Hcl, Happ, Hf, Hc, Ha.
    unfold children_of. cbn.
    repeat split;
      repeat first [rewrite lookup_insert_eq | rewrite lookup_insert_ne by done];
      cbn; rewrite <- ?app_assoc; reflexivity.
Qed.

(** X14. The public history is shown in the order the server lists it:
    the element of every message -- its content, its sender's name and
    avatar, its time, marked as sent exactly when the sender's id is the
    current user's -- is appended to both rooms, after what they already
    show; the private thread is not touched.  Afterwards the room of the
    user's side is the active one. *)
Theorem history_is_appended_in_order (ok : bool) (ms : list Message)
    (u : User) (w : World) :
  currentUser (app w) = Some u →
  ∃ w',
    loadPublicMessages_settled host (Response ok (Some ms)) w = Ok tt w'
    ∧ children_of (dom w') "chatwithme-messages"
      = children_of (dom w) "chatwithme-messages"
        ++ (flip (message_node host) u <$> ms)
    ∧ children_of (dom w') "towhomilovethemost-messages"
      = children_of (dom w) "towhomilovethemost-messages"
        ++ (flip (message_node host) u <$> ms)
    ∧ children_of (dom w') "private-messages"
      = children_of (dom w) "private-messages"
    ∧ active (dom w') "chatwithme-window"
      = bool_decide (chat_side u = "chatwithme")
    ∧ active (dom w') "towhomilovethemost-window"
      = negb (bool_decide (chat_side u = "chatwithme"))
    ∧ app w' = app w
    ∧ console w' = console w.
Proof.
  intros Hu. unfold loadPublicMessages_settled.
  unfold bind at 1. unfold try_catch.
  destruct (forEach_history u ms w Hu)
    as (w1 & E & HA & HB & HP & Hcl & Happ & Hf & Hc & Ha).
  rewrite E.
  assert (Hu1 : currentUser (app w1) = Some u) by (by rewrite Happ).
  destruct (updateChatWindowVisibility_sets_room u w1 Hu1)
    as (w2 & E2 & H1 & H2 & Happ2 & Hch & _).
  rewrite E2. exists w2. split; [reflexivity |].
  unfold children_of in *. rewrite Hch, HA, HB, HP, H1, H2, Happ2, Happ.
  repeat split; try reflexivity.
  unfold updateChatWindowVisibility, bind, this_currentUser in E2.
  rewrite Hu1 in E2.
  destruct (bool_decide (chat_side u = "chatwithme")); cbn in E2;
    inversion E2; subst w2; cbn; exact Hc.
Qed.

(** X15. When the history cannot be loaded the error is logged, the rooms stay
    as they are, no alert is raised, and the active room is still set. *)
Theorem history_failure_still_sets_room (o : Settled (list Message))
    (u : User) (w : World) :
  (∀ ok ms, o ≠ Response ok (Some ms)) →
  currentUser (app w) = Some u →
  ∃ w' e,
    loadPublicMessages_settled host o w = Ok tt w'
    ∧ console w' = console w ++ [Error "Error loading messages:" e]
    ∧ children (dom w') = children (dom w)
    ∧ alerts w' = alerts w
    ∧ active (dom w') "chatwithme-window"
      = bool_decide (chat_side u = "chatwithme")
    ∧ active (dom w') "towhomilovethemost-window"
      = negb (bool_decide (chat_side u = "chatwithme")).
Proof.
  intros Ho Hu.
  assert (He : ∃ e, ∀ w0 : World,
             try_catch
               (match o with
                | Rejected => throw FetchFailed
                | Response _ None => throw SyntaxError
                | Response _ (Some messages) =>
                    forEach
                      (fun message => addMessageToChat host message "public")
                      messages
                end)
               (fun error => console_error "Error loading messages:" error) w0
             = Ok tt (add_console (Error "Error loading messages:" e) w0)).
  { destruct o as [| ok [ms |]].
    - by exists FetchFailed.
    - by destruct (Ho ok ms).
    - by exists SyntaxError. }
  destruct He as [e He].
  unfold loadPublicMessages_settled. unfold bind at 1. rewrite He.
  destruct (updateChatWindowVisibility_sets_room u
              (add_console (Error "Error loading messages:" e) w) Hu)
    as (w2 & E2 & H1 & H2 & _ & Hch & _).
  rewrite E2. exists w2, e. split; [reflexivity |].
  rewrite Hch, H1, H2. repeat split; try reflexivity.
  - unfold updateChatWindowVisibility, bind, this_currentUser in E2.
    cbn in E2. rewrite Hu in E2.
    destruct (bool_decide (chat_side u = "chatwithme")); cbn in E2;
      inversion E2; subst w2; reflexivity.
  - unfold updateChatWindowVisibility, bind, this_currentUser in E2.
    cbn in E2. rewrite Hu in E2.
    destruct (bool_decide (chat_side u = "chatwithme")); cbn in E2;
      inversion E2; subst w2; reflexivity.
Qed.

End History.

Lemma one_room_is_active_witness :
  ∃ w',
    updateChatWindowVisibility Demo.logged_in = Ok tt w'
    ∧ active (dom w') "chatwithme-window"
      = bool_decide (chat_side Demo.alice = "chatwithme")
    ∧ active (dom w') "towhomilovethemost-window"
      = negb (bool_decide (chat_side Demo.alice = "chatwithme"))
    ∧ app w' = app Demo.logged_in
    ∧ children (dom w') = children (dom Demo.logged_in)
    ∧ fetched w' = fetched Demo.logged_in.
Proof.
  apply (one_room_is_active Demo.alice Demo.logged_in).
  vm_compute. reflexivity.
Defined.

Lemma history_is_appended_in_order_witness :
  ∃ w',
    loadPublicMessages_settled Demo.host
      (Response true (Some [Demo.hello_all; Demo.hello_all])) Demo.logged_in
    = Ok tt w'
    ∧ children_of (dom w') "chatwithme-messages"
      = children_of (dom Demo.logged_in) "chatwithme-messages"
        ++ (flip (message_node Demo.host) Demo.alice
              <$> [Demo.hello_all; Demo.hello_all])
    ∧ children_of (dom w') "towhomilovethemost-messages"
      = children_of (dom Demo.logged_in) "towhomilovethemost-messages"
        ++ (flip (message_node Demo.host) Demo.alice
              <$> [Demo.hello_all; Demo.hello_all])
    ∧ children_of (dom w') "private-messages"
      = children_of (dom Demo.logged_in) "private-messages"
    ∧ active (dom w') "chatwithme-window"
      = bool_decide (chat_side Demo.alice = "chatwithme")
    ∧ active (dom w') "towhomilovethemost-window"
      = negb (bool_decide (chat_side Demo.alice = "chatwithme"))
    ∧ app w' = app Demo.logged_in
    ∧ console w' = console Demo.logged_in.
Proof.
  apply (history_is_appended_in_order Demo.host true
           [Demo.hello_all; Demo.hello_all] Demo.alice Demo.logged_in).
  vm_compute. reflexivity.
Defined.

Lemma history_failure_still_sets_room_witness :
  ∃ w' e,
    loadPublicMessages_settled Demo.host (Response true None) Demo.logged_in
    = Ok tt w'
    ∧ console w' = console Demo.logged_in ++ [Error "Error loading messages:" e]
    ∧ children (dom w') = children (dom Demo.logged_in)
    ∧ alerts w' = alerts Demo.logged_in
    ∧ active (dom w') "chatwithme-window"
      = bool_decide (chat_side Demo.alice = "chatwithme")
    ∧ active (dom w') "towhomilovethemost-window"
      = negb (bool_decide (chat_side Demo.alice = "chatwithme")).
Proof.
  apply (history_failure_still_sets_room Demo.host (Response true None)
           Demo.alice Demo.logged_in).
  - intros ok ms. discriminate.
  - vm_compute. reflexivity.
Defined.


(** ** The notice of an answered invitation *)

Section Notifications.

Variable host : Host.

Lemma notice_text r :
  handleInvitationResponse r = showNotification (notice r).
Proof.
  unfold handleInvitationResponse, notice. by destruct (accepted r).
Qed.

Lemma filter_other_serials (n : nat) (l : list Node) :
  (∀ m t, NotificationNode m t ∈ l → (m < n)%nat) →
  List.filter (fun x => negb (is_notification n x)) l = l.
Proof.
  induction l as [| x l IH]; intros Hl; [reflexivity |].
  simpl.
  assert (Hx : is_notification n x = false).
  { destruct x; try reflexivity. simpl. apply bool_decide_eq_false.
    intros ->.
    match goal with
    | |- False => pose proof (Hl n text0 ltac:(left)) as Hlt; lia
    end. }
  rewrite Hx. simpl. f_equal. apply IH.
  intros m t Hm. apply (Hl m t). by right.
Qed.

(** X16. An answer to an invitation the user sent is shown as a notice and
    taken away by its own timer.  The notice names the responder, says
    accepted or declined, and names the activity; it is appended to the
    page with a removal timer of 5000 ms; no field of the session changes,
    the pending invitation included.  When that timer fires, that notice
    and no other is removed: the page shows what it showed before. *)
Theorem notice_comes_and_goes (r : InvitationResponse) (w : World) :
  serials_fresh w →
  let w1 := world_of (handleWebSocketMessage host (InvitationResponded r) w) in
  let w2 := step host (TimerFired (length (timers w))) w1 in
  children_of (dom w1) "body"
  = children_of (dom w) "body" ++ [NotificationNode (created w) (notice r)]
  ∧ timers w1 = timers w ++ [(5000, RemoveNotification (created w))]
  ∧ app w1 = app w
  ∧ serials_fresh w1
  ∧ children_of (dom w2) "body" = children_of (dom w) "body"
  ∧ timers w2 = timers w
  ∧ app w2 = app w.
Proof.
  intros Hfresh w1 w2.
  assert (E1 : w1 = add_timer 5000 (RemoveNotification (created w))
                      (world_of (appendChild "body"
                                   (NotificationNode (created w) (notice r))
                                   (bump_created w)))).
  { unfold w1. cbn [handleWebSocketMessage]. rewrite notice_text.
    reflexivity. }
  assert (Hbody : children_of (dom w1) "body"
                  = children_of (dom w) "body"
                    ++ [NotificationNode (created w) (notice r)]).
  { rewrite E1. unfold children_of. cbn. by rewrite lookup_insert_eq. }
  assert (Ht1 : timers w1
                = timers w ++ [(5000, RemoveNotification (created w))]).
  { by rewrite E1. }
  assert (E2 : w2 = world_of (run_callback host (RemoveNotification (created w))
                                (set_timers (timers w) w1))).
  { unfold w2. cbn [step]. rewrite Ht1.
    rewrite list_lookup_middle by reflexivity.
    rewrite (delete_last (timers w)). reflexivity. }
  split; [exact Hbody |].
  split; [exact Ht1 |].
  split; [by rewrite E1 |].
  split.
  { intros n t Hin. rewrite Hbody in Hin.
    apply elem_of_app in Hin as [Hin | Hin].
    - rewrite E1. cbn. apply Hfresh in Hin. lia.
    - apply list_elem_of_singleton in Hin. inversion Hin; subst.
      rewrite E1. cbn. lia. }
  assert (Happ1 : app w1 = app w) by (by rewrite E1).
  clearbody w2. subst w2. clearbody w1.
  cbn [run_callback world_of modify].
  repeat split.
  - unfold children_of at 1. cbn. rewrite lookup_insert_eq. cbn.
    change (default [] (children (dom w1) !! "body"))
      with (children_of (dom w1) "body").
    rewrite Hbody, List.filter_app. cbn.
    rewrite bool_decide_eq_true_2 by reflexivity. cbn.
    rewrite app_nil_r. apply filter_other_serials.
    intros m t Hm. by apply (Hfresh m t).
  - exact Happ1.
Qed.

End Notifications.

Lemma notice_comes_and_goes_witness :
  let r := {| accepted := true; responder := Demo.bob;
              resp_activity := "chess" |} in
  let w1 := world_of (handleWebSocketMessage Demo.host (InvitationResponded r)
                        Demo.logged_in) in
  let w2 := step Demo.host (TimerFired (length (timers Demo.logged_in))) w1 in
  children_of (dom w1) "body"
  = children_of (dom Demo.logged_in) "body"
    ++ [NotificationNode (created Demo.logged_in) (notice r)]
  ∧ timers w1
    = timers Demo.logged_in
      ++ [(5000, RemoveNotification (created Demo.logged_in))]
  ∧ app w1 = app Demo.logged_in
  ∧ serials_fresh w1
  ∧ children_of (dom w2) "body" = children_of (dom Demo.logged_in) "body"
  ∧ timers w2 = timers Demo.logged_in
  ∧ app w2 = app Demo.logged_in.
Proof.
  apply (notice_comes_and_goes Demo.host
           {| accepted := true; responder := Demo.bob;
              resp_activity := "chess" |} Demo.logged_in).
  intros n t Hin. vm_compute in Hin. by apply elem_of_nil in Hin.
Defined.


(** ** The invitation draft *)

Section Draft.

Variable host : Host.

Lemma hidden_after_close w :
  hidden (dom (world_of (closeActivitySelectionModal w)))
    "activity-selection-modal" = true.
Proof.
  change (hidden (dom (world_of (classList_add "activity-selection-modal"
                                   "hidden" w)))
            "activity-selection-modal" = true).
  apply hidden_after_add.
Qed.

Lemma hidden_after_open u w :
  hidden (dom (world_of (openActivitySelectionModal u w)))
    "activity-selection-modal" = false.
Proof.
  unfold hidden, classList. cbn. rewrite lookup_insert_eq. cbn.
  apply bool_decide_eq_false.
  rewrite elem_of_difference, elem_of_singleton. tauto.
Qed.

(** X17. The draft of an invitation never outlives its dialog.  Opening the
    dialog for a user sets the target and clears the activity, so one
    picked for an earlier target is not carried over, and sending at once
    only asks for an activity.  Picking an activity completes the draft.
    Cancelling clears target and activity and hides the dialog, after
    which sending again only asks for an activity; nothing in all this
    issues a request.  The picked button keeps its highlight when the
    dialog is cancelled, until the dialog is opened again. *)
Theorem draft_lives_with_its_dialog (u : User) (act : string) (w : World) :
  let w1 := world_of (openActivitySelectionModal u w) in
  let w2 := world_of (inviteBtnClick act w1) in
  let w3 := world_of (closeActivitySelectionModal w2) in
  invitationTargetUser (app w1) = Some u
  ∧ selectedActivity (app w1) = None
  ∧ invite_btn_selected (dom w1) = ∅
  ∧ hidden (dom w1) "activity-selection-modal" = false
  ∧ sendActivityInvitation w1
    = Ok tt (add_alert "Please select an activity" w1)
  ∧ draft (app w2) = (if Js.truthy act then Some (act, u) else None)
  ∧ draft (app w3) = None
  ∧ hidden (dom w3) "activity-selection-modal" = true
  ∧ invite_btn_selected (dom w3) = {[act]}
  ∧ sendActivityInvitation w3
    = Ok tt (add_alert "Please select an activity" w3)
  ∧ fetched w3 = fetched w.
Proof.
  intros w1 w2 w3.
  assert (Hd1 : draft (app w1) = None) by reflexivity.
  assert (Hd3 : draft (app w3) = None) by reflexivity.
  split; [reflexivity |]. split; [reflexivity |]. split; [reflexivity |].
  split; [apply hidden_after_open |].
  split; [by apply sendActivityInvitation_unmet |].
  split; [reflexivity |].
  split; [exact Hd3 |].
  split; [apply hidden_after_close |].
  split; [reflexivity |].
  split; [by apply sendActivityInvitation_unmet |].
  reflexivity.
Qed.

End Draft.

(** ** A stored record that cannot be read *)

Section UnreadableRecord.

Variable host : Host.

(** X18. When the storage holds a record that is not empty and cannot be
    parsed, start-up stops at the parse: the error is uncaught, neither
    the login dialog nor the main interface is shown, there is no current
    user, and the listeners are never installed -- so no click or key
    press on the page does anything from then on. *)
Theorem unreadable_record_stops_startup (s : string) (w : World) :
  localStorage w !! storage_key = Some s →
  Js.truthy s = true →
  JSON_parse_user host s = None →
  listening w = false →
  let w' := step host DOMContentLoaded w in
  w' = add_console (Uncaught SyntaxError) (set_app (fun _ => new_App) w)
  ∧ dom w' = dom w
  ∧ currentUser (app w') = None
  ∧ listening w' = false
  ∧ ∀ ev, user_action ev → step host ev w' = w'.
Proof.
  intros Hs Ht Hp Hl w'.
  assert (E : w' = add_console (Uncaught SyntaxError)
                     (set_app (fun _ => new_App) w)).
  { unfold w'. cbn [step].
    unfold constructor, bind at 1. cbn [assign modify].
    unfold detached, init. unfold bind at 1. cbn [gets localStorage set_app].
    by rewrite Hs, Ht, Hp. }
  clearbody w'. subst w'.
  split; [reflexivity |]. split; [reflexivity |]. split; [reflexivity |].
  split; [exact Hl |].
  intros ev Hev.
  destruct ev; try contradiction; cbn [step]; unfold on_ui;
    cbn [listening add_console set_app]; rewrite Hl;
    try reflexivity; by destruct (bubble_shown _ _).
Qed.

End UnreadableRecord.

Lemma unreadable_record_stops_startup_witness :
  let w := set_localStorage <[storage_key := "{oops"]> Demo.fresh in
  let w' := step Demo.host DOMContentLoaded w in
  w' = add_console (Uncaught SyntaxError) (set_app (fun _ => new_App) w)
  ∧ dom w' = dom w
  ∧ currentUser (app w') = None
  ∧ listening w' = false
  ∧ ∀ ev, user_action ev → step Demo.host ev w' = w'.
Proof.
  apply (unreadable_record_stops_startup Demo.host "{oops"
           (set_localStorage <[storage_key := "{oops"]> Demo.fresh));
    vm_compute; reflexivity.
Defined.

(** ** The answer to a sent message *)

Section SendAnswer.

Variable host : Host.

(** X19. The answer to a public send touches one input and nothing else.  A
    2xx answer empties the input of the room the message was sent from,
    whatever it holds by then; any other outcome leaves the text in
    place.  No session field, no surface and no other input changes, and
    no alert is ever raised: a rejected request is logged, a refused one
    is not even that. *)
Theorem send_answer_touches_only_its_input (chatSide : string)
    (o : Settled unit) (w : World) :
  ∃ w',
    sendPublicMessage_settled chatSide o w = Ok tt w'
    ∧ value_of (dom w') (chatSide +:+ "-input")
      = match o with
        | Response true _ => ""
        | _ => value_of (dom w) (chatSide +:+ "-input")
        end
    ∧ (∀ id, id ≠ chatSide +:+ "-input" →
             value_of (dom w') id = value_of (dom w) id)
    ∧ app w' = app w
    ∧ children (dom w') = children (dom w)
    ∧ classes (dom w') = classes (dom w)
    ∧ alerts w' = alerts w
    ∧ fetched w' = fetched w
    ∧ console w'
      = match o with
        | Rejected => console w ++ [Error "Error sending message:" FetchFailed]
        | _ => console w
        end.
Proof.
  destruct o as [| [] b]; eexists; (split; [reflexivity |]);
    repeat split; try reflexivity.
  - unfold value_of. cbn. by rewrite lookup_insert_eq.
  - intros id Hid. unfold value_of. cbn.
    by rewrite lookup_insert_ne by (intros E; by apply Hid).
Qed.

(** The same holds for a private send and the private input. *)
Theorem private_send_answer_touches_only_its_input (o : Settled unit)
    (w : World) :
  ∃ w',
    sendPrivateMessage_settled o w = Ok tt w'
    ∧ value_of (dom w') "private-message-input"
      = match o with
        | Response true _ => ""
        | _ => value_of (dom w) "private-message-input"
        end
    ∧ (∀ id, id ≠ "private-message-input" →
             value_of (dom w') id = value_of (dom w) id)
    ∧ app w' = app w
    ∧ children (dom w') = children (dom w)
    ∧ alerts w' = alerts w
    ∧ fetched w' = fetched w
    ∧ console w'
      = match o with
        | Rejected =>
            console w ++ [Error "Error sending private message:" FetchFailed]
        | _ => console w
        end.
Proof.
  destruct o as [| [] b]; eexists; (split; [reflexivity |]);
    repeat split; try reflexivity.
  - unfold value_of. cbn. by rewrite lookup_insert_eq.
  - intros id Hid. unfold value_of. cbn.
    by rewrite lookup_insert_ne by (intros E; by apply Hid).
Qed.

End SendAnswer.


(** ** What changes the draft *)

Section DraftFrame.

Variable host : Host.

(** X20. The draft changes only through its dialog: apart from a click on an
    avatar, on an activity button of the dialog or on cancel, the answer
    to a proposal and a reload, no event changes the selected activity or
    the target.  A click on an activity of the side list, in particular,
    selects nothing for an invitation. *)
Theorem draft_changes_only_in_dialog (ev : Event) (w : World) :
  beside_dialog ev →
  selectedActivity (app (step host ev w)) = selectedActivity (app w)
  ∧ invitationTargetUser (app (step host ev w))
    = invitationTargetUser (app w).
Proof.
  intros Hev.
  assert (H : draft_fields (step host ev w) = draft_fields w).
  { destruct ev; try contradiction; to_handler draft_fields;
      try match goal with
          | |- Keeps _ (run_callback _ ?cb) => destruct cb; cbn [run_callback]
          end;
      unfold ws_onmessage; open_methods; keeps. }
  unfold draft_fields in H. by inversion H.
Qed.

End DraftFrame.

Lemma draft_changes_only_in_dialog_witness :
  selectedActivity (app (step Demo.host (ActivityClick "chess") Demo.drafting))
  = selectedActivity (app Demo.drafting)
  ∧ invitationTargetUser
      (app (step Demo.host (ActivityClick "chess") Demo.drafting))
    = invitationTargetUser (app Demo.drafting).
Proof.
  apply (draft_changes_only_in_dialog Demo.host (ActivityClick "chess")
           Demo.drafting).
  exact I.
Defined.

(** ** A login answered without a user *)

Section LoginWithoutUser.

Variable host : Host.

(** X21. A 2xx answer to the login whose body holds no user -- the field
    is missing, or it is [null] -- is taken as a success all the same:
    what [JSON.stringify] makes of the value is stored under the key, the
    text [undefined] for a missing field and the text [null] for [null];
    the login dialog is hidden and the main interface shown, and there the
    start of the session stops on the missing user -- the error is
    uncaught, no socket is opened, no request is made, no alert is raised,
    and there is no current user. *)
Theorem login_without_user_half_starts (r : LoginResult) (w : World) :
  result_user r = None →
  ∃ w',
    handleLogin_settled host (Response true (Some r)) w = Ok tt w'
    ∧ currentUser (app w') = None
    ∧ localStorage w' !! storage_key
      = Some (if result_user_null r then "null" else "undefined")
    ∧ hidden (dom w') "login-modal" = true
    ∧ hidden (dom w') "main-interface" = false
    ∧ sockets w' = sockets w
    ∧ fetched w' = fetched w
    ∧ alerts w' = alerts w
    ∧ console w' = console w ++ [Uncaught (TypeError "currentUser")].
Proof.
  intros Hr. unfold handleLogin_settled, try_catch.
  unfold bind at 1. cbn [assign modify]. unfold bind at 1. cbn [modify].
  rewrite Hr. unfold detached, showMainInterface.
  unfold bind at 1. cbn [classList_add modify].
  unfold bind at 1. cbn [classList_remove modify].
  unfold bind at 1. unfold this_currentUser at 1.
  cbn [app set_dom set_localStorage set_app with_currentUser currentUser].
  eexists. split; [reflexivity |]. cbn [report].
  repeat split.
  - cbn. by rewrite lookup_insert_eq.
  - unfold hidden, classList. cbn.
    rewrite lookup_insert_ne by done. rewrite lookup_insert_eq. cbn.
    apply bool_decide_eq_true. rewrite elem_of_union, elem_of_singleton.
    by right.
  - unfold hidden, classList. cbn. rewrite lookup_insert_eq. cbn.
    apply bool_decide_eq_false.
    rewrite elem_of_difference, elem_of_singleton. tauto.
Qed.

End LoginWithoutUser.

Lemma login_without_user_half_starts_witness :
  ∃ w',
    handleLogin_settled Demo.host
      (Response true
         (Some {| result_user := None; result_user_null := true;
                  result_detail := None; result_message := None |}))
      Demo.fresh = Ok tt w'
    ∧ currentUser (app w') = None
    ∧ localStorage w' !! storage_key = Some "null"
    ∧ hidden (dom w') "login-modal" = true
    ∧ hidden (dom w') "main-interface" = false
    ∧ sockets w' = sockets Demo.fresh
    ∧ fetched w' = fetched Demo.fresh
    ∧ alerts w' = alerts Demo.fresh
    ∧ console w' = console Demo.fresh ++ [Uncaught (TypeError "currentUser")].
Proof.
  apply (login_without_user_half_starts Demo.host
           {| result_user := None; result_user_null := true;
              result_detail := None; result_message := None |} Demo.fresh).
  reflexivity.
Defined.
